(** * check-minimax-balance.js: a shallow embedding and its properties

    The script [scripts/check-minimax-balance.js] resolves a session cookie,
    drives a headless browser to the MiniMax user centre, derives a balance
    observation from the loaded page, prepends it to [MINIMAX_BALANCE.md]
    and tries to publish the change with git.

    The embedding follows the script function by function.  Everything the
    script reads from outside (files, environment, clock, browser, network,
    git) is a field of [World]; everything it does to the outside is an
    [Event] appended to the trace of a [State], which also holds the
    balance file.  Exceptions are the [Throw] outcome of a small state and
    error monad. *)

From Stdlib Require Import List NArith ZArith QArith Bool Lia String Ascii.
Import ListNotations.
Close Scope Q_scope.
Open Scope list_scope.

Set Implicit Arguments.
Set Warnings "-register-all".

(** ** JavaScript strings

    A JavaScript string is a sequence of UTF-16 code units; [substring],
    [split], [includes] and [trim] all work on code units. *)

Module JsString.

Definition t := list N.

Definition lit (s : string) : t :=
  map N_of_ascii (list_ascii_of_string s).

Definition eqb (a b : t) : bool :=
  if list_eq_dec N.eq_dec a b then true else false.

(** [s.startsWith(p)], used to define [includes]. *)
Fixpoint startsWith (p s : t) : bool :=
  match p, s with
  | [], _ => true
  | _ :: _, [] => false
  | a :: p', b :: s' => N.eqb a b && startsWith p' s'
  end.

(** [s.includes(needle)]. *)
Fixpoint includes (s needle : t) : bool :=
  startsWith needle s ||
  match s with
  | [] => false
  | _ :: s' => includes s' needle
  end.

(** [s.substring(0, n)]. *)
Definition substring0 (n : nat) (s : t) : t := firstn n s.

(** [s.split(sep)] for a separator of one code unit.  The result always
    has at least one piece: [''.split(';')] is [['']]. *)
Fixpoint split (sep : N) (s : t) : list t :=
  match s with
  | [] => [[]]
  | c :: s' =>
      if N.eqb c sep then [] :: split sep s'
      else match split sep s' with
           | piece :: pieces => (c :: piece) :: pieces
           | [] => [[c]]
           end
  end.

(** [pieces.join(sep)] for a separator of one code unit. *)
Fixpoint join (sep : N) (pieces : list t) : t :=
  match pieces with
  | [] => []
  | [p] => p
  | p :: rest => p ++ sep :: join sep rest
  end.

(** White space and line terminators, as [String.prototype.trim] removes
    them. *)
Definition is_space (c : N) : bool :=
  ((9 <=? c) && (c <=? 13) || (c =? 32) || (c =? 160) || (c =? 5760)
   || (8192 <=? c) && (c <=? 8202) || (c =? 8232) || (c =? 8233)
   || (c =? 8239) || (c =? 8287) || (c =? 12288) || (c =? 65279))%N.

Fixpoint trimStart (s : t) : t :=
  match s with
  | [] => []
  | c :: s' => if is_space c then trimStart s' else s
  end.

Definition trimEnd (s : t) : t := rev (trimStart (rev s)).

Definition trim (s : t) : t := trimEnd (trimStart s).

(** [s.replace(a, b)] for patterns of one code unit: the first occurrence
    only. *)
Fixpoint replace1 (a b : N) (s : t) : t :=
  match s with
  | [] => []
  | c :: s' => if N.eqb c a then b :: s' else c :: replace1 a b s'
  end.

Definition is_digit (c : N) : bool := ((48 <=? c) && (c <=? 57))%N.

Fixpoint skipDigits (s : t) : t :=
  match s with
  | [] => []
  | c :: s' => if is_digit c then skipDigits s' else s
  end.

(** A match of [/\d+\.\d{2}/] anchored at the head of [s]: one or more
    digits (as many as there are, a shorter run is followed by a digit and
    not by the point), the point, two digits. *)
Definition amountAt (s : t) : bool :=
  match s with
  | c :: s' =>
      is_digit c &&
      match skipDigits s' with
      | p :: d1 :: d2 :: _ => (p =? 46)%N && is_digit d1 && is_digit d2
      | _ => false
      end
  | [] => false
  end.

(** [/\d+\.\d{2}/.test(s)]: a match at some position. *)
Fixpoint testAmount (s : t) : bool :=
  amountAt s ||
  match s with
  | [] => false
  | _ :: s' => testAmount s'
  end.

End JsString.

Definition jsstring : Type := JsString.t.

Definition lit : string -> jsstring := JsString.lit.

(** ** JavaScript values, as [JSON.parse] and [page.evaluate] produce them *)

Inductive JsNumber :=
| Finite (q : Q)
| PosInfinity
| NegInfinity
| NaN.

Inductive JsValue :=
| JUndefined
| JNull
| JBool (b : bool)
| JNum (n : JsNumber)
| JStr (s : jsstring)
| JArr (items : list JsValue)
| JObj (fields : list (jsstring * JsValue)).

(** What the script can throw.  [ErrMissingCookie] is the [Error] built at
    line 31; [ErrSyntax] is [JSON.parse] on a malformed file; [ErrType] is a
    property read on [null] or a call of a method the value does not have;
    [ErrExternal] is an error raised by puppeteer, the page, [fs] or
    [child_process], with its message. *)
Inductive JsError :=
| ErrMissingCookie
| ErrSyntax
| ErrType
| ErrExternal (message : jsstring).

Module Js.

(** [ToBoolean]. *)
Definition truthy (v : JsValue) : bool :=
  match v with
  | JUndefined | JNull => false
  | JBool b => b
  | JNum (Finite q) => negb (Z.eqb (Qnum q) 0)
  | JNum NaN => false
  | JNum _ => true
  | JStr s => match s with [] => false | _ => true end
  | JArr _ | JObj _ => true
  end.

Fixpoint lookup (key : jsstring) (fields : list (jsstring * JsValue))
  : option JsValue :=
  match fields with
  | [] => None
  | (k, v) :: rest => if JsString.eqb k key then Some v else lookup key rest
  end.

(** [v.key] for a key that no prototype defines: a [TypeError] on [null]
    and [undefined], the field of an object, [undefined] elsewhere. *)
Definition getField (key : jsstring) (v : JsValue) : JsError + JsValue :=
  match v with
  | JUndefined | JNull => inl ErrType
  | JObj fields =>
      match lookup key fields with
      | Some x => inr x
      | None => inr JUndefined
      end
  | _ => inr JUndefined
  end.

(** [a || b] on strings read from the environment, where an unset variable
    is [undefined]. *)
Definition orElse (a : option jsstring) (b : jsstring) : jsstring :=
  match a with
  | Some (c :: s) => c :: s
  | _ => b
  end.

End Js.

(** ** The outside world *)

(** The state of [minimax-cookie.json]: missing, present with text that
    [JSON.parse] rejects, or present with the value [JSON.parse] returns. *)
Inductive CookieFile :=
| NoFile
| Malformed (text : jsstring)
| Parsed (cookieData : JsValue).

(** An element of the loaded document: its local name, its [class]
    attribute when it has one, and its [innerText] ([undefined] on elements
    that are not HTML elements). *)
Record Element := {
  tagName : jsstring;
  classAttr : option jsstring;
  innerText : option jsstring
}.

(** An entry of [performance.getEntriesByType('resource')]. *)
Record ResourceEntry := {
  entryName : jsstring;
  initiatorType : jsstring
}.

(** What [fetch(url)] followed by [res.json()] gives inside the page. *)
Inductive FetchReply :=
| Rejected (message : jsstring)
| Body (json : JsValue).

(** The awaited puppeteer calls of the session that can reject. *)
Inductive Step :=
| NewPage
| SetCookie
| Goto
| WaitForBody
| EvaluateContent
| EvaluateApiCalls.

Inductive GitCmd :=
| GitAdd
| GitCommit (date : jsstring)
| GitPush.

Record World := {
  cookieFile : CookieFile;
  MINIMAX_COOKIE : option jsstring;
  (** [new Date().toISOString()] at the k-th reading of the clock *)
  clock : nat -> jsstring;
  (** [require('puppeteer')] and [puppeteer.launch] *)
  launchError : option jsstring;
  stepError : Step -> option jsstring;
  closeError : option jsstring;
  document : list Element;
  bodyInnerText : jsstring;
  resources : list ResourceEntry;
  fetchJson : jsstring -> FetchReply;
  writeError : option jsstring;
  git : GitCmd -> option jsstring
}.

(** ** Results, events and state *)

Record Cookie := {
  name : jsstring;
  value : jsstring;
  domain : jsstring
}.

Record ApiCall := {
  callName : jsstring;
  callType : jsstring
}.

(** The two [return] statements of [fetchBalance]: the parsed body of a
    re-fetched call (line 109) and the page snapshot (line 116). *)
Inductive FetchResult :=
| ApiResponse (response : JsValue)
| PageLoaded (content_preview : jsstring).

Definition toJs (r : FetchResult) : JsValue :=
  match r with
  | ApiResponse response => response
  | PageLoaded preview =>
      JObj [(lit "status", JStr (lit "page_loaded"));
            (lit "content_preview", JStr preview)]
  end.

(** The lines the script prints with [console.log], by call site. *)
Inductive LogLine :=
| LogBanner
| LogTime (date : jsstring)
| LogPageLoaded
| LogApiCalls (calls : list ApiCall)
| LogApiResponse (response : JsValue)
| LogFetchFailed (e : JsError)
| LogBalance (balance : JsValue)
| LogSaved
| LogSynced
| LogGitFailed (e : JsError)
| LogDone.

Inductive Event :=
| Console (line : LogLine)
| ConsoleError (e : JsError)
| PageConsole (text : jsstring)
| BrowserLaunch
| BrowserNewPage
| PageSetCookie (cookies : list Cookie)
| PageGoto (url : jsstring)
| PageWaitForSelector
| PageFetch (url : jsstring)
| BrowserClose
| WriteFile (content : jsstring)
| Exec (cmd : GitCmd)
| ProcessExit (code : Z).

Record State := {
  trace : list Event;
  balanceFile : option jsstring;
  ticks : nat
}.

(** ** A state and error monad for the script's control flow *)

Inductive Outcome (A : Type) :=
| Return (a : A)
| Throw (e : JsError).
Arguments Throw {A} e.

Definition M (A : Type) : Type := State -> Outcome A * State.

Definition ret {A} (a : A) : M A := fun s => (Return a, s).

Definition throw {A} (e : JsError) : M A := fun s => (Throw e, s).

Definition bind {A B} (m : M A) (k : A -> M B) : M B :=
  fun s =>
    match m s with
    | (Return a, s') => k a s'
    | (Throw e, s') => (Throw e, s')
    end.

Notation "x <- m ;; k" := (bind m (fun x => k))
  (at level 61, m at next level, right associativity).
Notation "m ;; k" := (bind m (fun _ => k))
  (at level 61, right associativity).

Definition emit (e : Event) : M unit :=
  fun s => (Return tt,
            {| trace := trace s ++ [e];
               balanceFile := balanceFile s;
               ticks := ticks s |}).

(** [try { body } catch (e) { handler e }] *)
Definition tryCatch {A} (body : M A) (handler : JsError -> M A) : M A :=
  fun s =>
    match body s with
    | (Return a, s') => (Return a, s')
    | (Throw e, s') => handler e s'
    end.

(** [try { body } finally { final }]: [final] runs on every outcome of
    [body]; when it throws, its error replaces that outcome. *)
Definition tryFinally {A} (body : M A) (final : M unit) : M A :=
  fun s =>
    match body s with
    | (r, s') =>
        match final s' with
        | (Return _, s'') => (r, s'')
        | (Throw e, s'') => (Throw e, s'')
        end
    end.

(** [for (const x of xs) body x], with no early exit. *)
Fixpoint forEach {A} (xs : list A) (body : A -> M unit) : M unit :=
  match xs with
  | [] => ret tt
  | x :: rest => body x ;; forEach rest body
  end.

(** ** The script *)

Module Script.

(** *** [getCookie], lines 12-21 *)

Definition getCookie (w : World) : M JsValue :=
  match cookieFile w with
  | Parsed cookieData =>
      match Js.getField (lit "cookie") cookieData with
      | inr cookie => ret cookie
      | inl e => throw e
      end
  | Malformed _ => throw ErrSyntax
  | NoFile => ret (JStr (Js.orElse (MINIMAX_COOKIE w) []))
  end.

(** *** [formatDate], lines 23-26 *)

Definition now (w : World) : M jsstring :=
  fun s => (Return (clock w (ticks s)),
            {| trace := trace s;
               balanceFile := balanceFile s;
               ticks := S (ticks s) |}).

(** [iso.replace('T', ' ').substring(0, 19) + ' UTC'] *)
Definition stamp (iso : jsstring) : jsstring :=
  JsString.substring0 19 (JsString.replace1 84 32 iso) ++ lit " UTC".

Definition formatDate (w : World) : M jsstring :=
  iso <- now w ;;
  ret (stamp iso).

(** *** Cookie injection, lines 50-53 *)

Definition cookieDomain : jsstring := lit ".minimaxi.com".

(** [c => { const [name, ...value] = c.trim().split('='); ... }] *)
Definition toCookie (c : jsstring) : Cookie :=
  match JsString.split 61 (JsString.trim c) with
  | n :: v =>
      {| name := n; value := JsString.join 61 v; domain := cookieDomain |}
  | [] =>
      {| name := []; value := []; domain := cookieDomain |}
  end.

(** [cookie.split(';').map(...)] on a string. *)
Definition parseCookies (cookie : jsstring) : list Cookie :=
  map toCookie (JsString.split 59 cookie).

(** The same on the value that [getCookie] returned: only a string has a
    [split] method. *)
Definition cookiesOf (cookie : JsValue) : M (list Cookie) :=
  match cookie with
  | JStr s => ret (parseCookies s)
  | _ => throw ErrType
  end.

(** *** The scan of the document, lines 63-86 *)

Inductive Selector :=
| ClassHas (part : jsstring)
| TagIs (tag : jsstring).

Definition selectors : list Selector :=
  [ClassHas (lit "balance"); ClassHas (lit "credit");
   ClassHas (lit "amount"); ClassHas (lit "quota");
   TagIs (lit "span"); TagIs (lit "div")].

Definition matches (sel : Selector) (el : Element) : bool :=
  match sel with
  | ClassHas part =>
      match classAttr el with
      | Some c => JsString.includes c part
      | None => false
      end
  | TagIs tag => JsString.eqb (tagName el) tag
  end.

(** [document.querySelectorAll(sel)], in document order. *)
Definition querySelectorAll (w : World) (sel : Selector) : list Element :=
  filter (matches sel) (document w).

Definition yen : jsstring := [165%N].
Definition yuan : jsstring := [20803%N].

(** [text && (text.includes('¥') || text.includes('元') ||
    /\d+\.\d{2}/.test(text))] *)
Definition looksLikeMoney (text : option jsstring) : bool :=
  match text with
  | Some (c :: r) =>
      let t := c :: r in
      JsString.includes t yen || JsString.includes t yuan
      || JsString.testAmount t
  | _ => false
  end.

Definition found (text : jsstring) : Event :=
  PageConsole (lit "Found: " ++ text).

Definition inspect (el : Element) : M unit :=
  if looksLikeMoney (innerText el) then
    match innerText el with
    | Some text => emit (found text)
    | None => ret tt
    end
  else ret tt.

(** The callback of the first [page.evaluate]: every match is printed on
    the page's console, and the text of the body is what it returns. *)
Definition scanDocument (w : World) : M jsstring :=
  forEach selectors
    (fun sel => forEach (querySelectorAll w sel) inspect) ;;
  ret (bodyInnerText w).

(** *** The recent fetch and xhr requests, lines 91-96 *)

Definition isAsync (r : ResourceEntry) : bool :=
  JsString.eqb (initiatorType r) (lit "fetch")
  || JsString.eqb (initiatorType r) (lit "xhr").

Definition toCall (r : ResourceEntry) : ApiCall :=
  {| callName := entryName r; callType := initiatorType r |}.

(** [xs.slice(-n)] *)
Definition sliceLast {A} (n : nat) (xs : list A) : list A :=
  skipn (List.length xs - n) xs.

Definition recentCalls (w : World) : list ApiCall :=
  sliceLast 10 (map toCall (filter isAsync (resources w))).

(** *** The probe of the balance-like calls, lines 101-114 *)

Definition isBalanceUrl (url : jsstring) : bool :=
  JsString.includes url (lit "balance")
  || JsString.includes url (lit "credit")
  || JsString.includes url (lit "quota").

(** [page.evaluate(async url => (await fetch(url)).json(), call.name)] *)
Definition refetch (w : World) (url : jsstring) : M JsValue :=
  emit (PageFetch url) ;;
  match fetchJson w url with
  | Body json => ret json
  | Rejected message => throw (ErrExternal message)
  end.

(** The loop; [Some response] is its [return response], [None] is falling
    out of it. *)
Fixpoint probe (w : World) (calls : list ApiCall) : M (option JsValue) :=
  match calls with
  | [] => ret None
  | call :: rest =>
      if isBalanceUrl (callName call) then
        r <- tryCatch
               (response <- refetch w (callName call) ;;
                emit (Console (LogApiResponse response)) ;;
                ret (Some response))
               (fun e => emit (Console (LogFetchFailed e)) ;; ret None) ;;
        match r with
        | Some response => ret (Some response)
        | None => probe w rest
        end
      else probe w rest
  end.

(** *** [fetchBalance], lines 28-121 *)

Definition url : jsstring :=
  lit "https://platform.minimaxi.com/user-center/basic-information".

(** An awaited call of the session: it is made, and it may reject. *)
Definition await (w : World) (st : Step) : M unit :=
  match stepError w st with
  | Some message => throw (ErrExternal message)
  | None => ret tt
  end.

Definition launch (w : World) : M unit :=
  match launchError w with
  | Some message => throw (ErrExternal message)
  | None => emit BrowserLaunch
  end.

Definition close (w : World) : M unit :=
  emit BrowserClose ;;
  match closeError w with
  | Some message => throw (ErrExternal message)
  | None => ret tt
  end.

(** Lines 63-116: from the loaded page to the result. *)
Definition extract (w : World) : M FetchResult :=
  await w EvaluateContent ;;
  content <- scanDocument w ;;
  emit (Console LogPageLoaded) ;;
  await w EvaluateApiCalls ;;
  let apiCalls := recentCalls w in
  emit (Console (LogApiCalls apiCalls)) ;;
  r <- probe w apiCalls ;;
  match r with
  | Some response => ret (ApiResponse response)
  | None => ret (PageLoaded (JsString.substring0 500 content))
  end.

(** Lines 47-116: the body of the [try]. *)
Definition session (w : World) (cookie : JsValue) : M FetchResult :=
  emit BrowserNewPage ;; await w NewPage ;;
  cookies <- cookiesOf cookie ;;
  emit (PageSetCookie cookies) ;; await w SetCookie ;;
  emit (PageGoto url) ;; await w Goto ;;
  emit PageWaitForSelector ;; await w WaitForBody ;;
  extract w.

Definition fetchBalance (w : World) : M FetchResult :=
  cookie <- getCookie w ;;
  if negb (Js.truthy cookie) then throw ErrMissingCookie
  else
    launch w ;;
    tryFinally (session w cookie) (close w).

(** *** [saveToGitHub], lines 123-152, and [main], lines 154-172 *)

Section Runtime.

(** [JSON.stringify(v, null, 2)], the pretty-printer of the runtime. *)
Variable JSON_stringify : JsValue -> jsstring.

Definition newline : jsstring := [10%N].

(** ['# MiniMax 余额记录\n\n'] *)
Definition title : jsstring :=
  lit "# MiniMax " ++ [20313; 39069; 35760; 24405]%N ++ newline ++ newline.

(** ['\n---\n\n'] *)
Definition separator : jsstring :=
  newline ++ lit "---" ++ newline ++ newline.

(** [`## ${date}\n${JSON.stringify(balanceData, null, 2)}\n\n`] *)
Definition record (date : jsstring) (balanceData : JsValue) : jsstring :=
  lit "## " ++ date ++ newline ++ JSON_stringify balanceData
  ++ newline ++ newline.

(** What precedes the separator in the text that is written. *)
Definition newSection (date : jsstring) (balanceData : JsValue) : jsstring :=
  title ++ record date balanceData.

(** [fs.existsSync(balanceFile) ? fs.readFileSync(balanceFile) : ''] *)
Definition readExisting : M jsstring :=
  fun s => (Return (match balanceFile s with
                    | Some text => text
                    | None => []
                    end), s).

Definition store (content : jsstring) : M unit :=
  fun s => (Return tt,
            {| trace := trace s;
               balanceFile := Some content;
               ticks := ticks s |}).

(** [fs.writeFileSync(balanceFile, newContent)] *)
Definition writeFileSync (w : World) (content : jsstring) : M unit :=
  emit (WriteFile content) ;;
  match writeError w with
  | Some message => throw (ErrExternal message)
  | None => store content
  end.

(** [execSync(cmd, { cwd: repoDir })] *)
Definition execSync (w : World) (cmd : GitCmd) : M unit :=
  emit (Exec cmd) ;;
  match git w cmd with
  | Some message => throw (ErrExternal message)
  | None => ret tt
  end.

Definition publish (w : World) (date : jsstring) : M unit :=
  tryCatch
    (execSync w GitAdd ;;
     execSync w (GitCommit date) ;;
     execSync w GitPush ;;
     emit (Console LogSynced))
    (fun e => emit (Console (LogGitFailed e))).

Definition saveToGitHub (w : World) (balanceData : JsValue) : M unit :=
  date <- formatDate w ;;
  existingContent <- readExisting ;;
  let newContent :=
    title ++ record date balanceData ++ separator ++ existingContent in
  writeFileSync w newContent ;;
  emit (Console LogSaved) ;;
  publish w date.

Definition observation (timestamp : jsstring) (balance : FetchResult)
  : JsValue :=
  JObj [(lit "timestamp", JStr timestamp); (lit "data", toJs balance)].

(** Lines 155-156. *)
Definition announce (w : World) : M unit :=
  emit (Console LogBanner) ;;
  started <- formatDate w ;;
  emit (Console (LogTime started)).

(** The exit code of the process: [process.exit(1)] in the handler, 0 when
    [main] runs to its end. *)
Definition main (w : World) : M Z :=
  announce w ;;
  tryCatch
    (balance <- fetchBalance w ;;
     emit (Console (LogBalance (toJs balance))) ;;
     timestamp <- formatDate w ;;
     saveToGitHub w (observation timestamp balance) ;;
     emit (Console LogDone) ;;
     ret 0%Z)
    (fun error =>
       emit (ConsoleError error) ;;
       emit (ProcessExit 1) ;;
       ret 1%Z).

End Runtime.

(** A run starts with an empty trace and the balance file as it is on
    disk. *)
Definition start (file : option jsstring) : State :=
  {| trace := []; balanceFile := file; ticks := 0 |}.

End Script.

(** ** Vocabulary of the statements *)

(** The state after the events [evs] and nothing else. *)
Definition extend (s : State) (evs : list Event) : State :=
  {| trace := trace s ++ evs;
     balanceFile := balanceFile s;
     ticks := ticks s |}.

(** [returns m a]: from every state [m] returns [a], and only adds events. *)
Definition returns {A} (m : M A) (a : A) : Prop :=
  forall s, exists evs, m s = (Return a, extend s evs).

(** [appends P m]: whatever the outcome, [m] only adds events, and all of
    them satisfy [P]. *)
Definition appends {A} (P : Event -> Prop) (m : M A) : Prop :=
  forall s, exists evs, snd (m s) = extend s evs /\ Forall P evs.

(** [ensures Q m]: every value that [m] returns satisfies [Q]. *)
Definition ensures {A} (Q : A -> Prop) (m : M A) : Prop :=
  forall s a, fst (m s) = Return a -> Q a.

(** The two events of the browser's life. *)
Definition lifecycle (e : Event) : bool :=
  match e with
  | BrowserLaunch | BrowserClose => true
  | _ => false
  end.

Definition inSession (e : Event) : Prop := lifecycle e = false.

Definition isClose (e : Event) : bool :=
  match e with
  | BrowserClose => true
  | _ => false
  end.

(** How many times the browser is closed in a trace. *)
Definition closes (evs : list Event) : nat :=
  List.length (filter isClose evs).

Definition isNone {A} (o : option A) : bool :=
  match o with
  | None => true
  | Some _ => false
  end.

Definition steps : list Step :=
  [NewPage; SetCookie; Goto; WaitForBody; EvaluateContent; EvaluateApiCalls].

(** The browser starts, every awaited call of the session resolves, and the
    browser closes without error. *)
Definition healthy (w : World) : bool :=
  isNone (launchError w)
  && forallb (fun st => isNone (stepError w st)) steps
  && isNone (closeError w).

(** The call is one the probe re-fetches, and the re-fetch gives a body. *)
Definition answers (w : World) (call : ApiCall) : bool :=
  Script.isBalanceUrl (callName call)
  && match fetchJson w (callName call) with
     | Body _ => true
     | Rejected _ => false
     end.

Definition noAnswer (w : World) (calls : list ApiCall) : bool :=
  forallb (fun call => negb (answers w call)) calls.

(** A body that the probe returns is the reply to a balance-like call. *)
Definition repliedBy (w : World) (calls : list ApiCall) (response : JsValue)
  : Prop :=
  exists call, In call calls /\ Script.isBalanceUrl (callName call) = true
               /\ fetchJson w (callName call) = Body response.

(** The text of the balance file, [''] when there is none. *)
Definition existing (s : State) : jsstring :=
  match balanceFile s with
  | Some text => text
  | None => []
  end.

(** One of the three git commands fails. *)
Definition gitFails (w : World) (date : jsstring) : bool :=
  negb (isNone (git w GitAdd) && isNone (git w (GitCommit date))
        && isNone (git w GitPush)).

(** What [publish] adds to the trace: the commands up to the first that
    fails and the line that reports it, or the three commands and the line
    that reports the synchronisation. *)
Definition publishEvents (w : World) (date : jsstring) : list Event :=
  match git w GitAdd with
  | Some m => [Exec GitAdd; Console (LogGitFailed (ErrExternal m))]
  | None =>
      match git w (GitCommit date) with
      | Some m => [Exec GitAdd; Exec (GitCommit date);
                   Console (LogGitFailed (ErrExternal m))]
      | None =>
          match git w GitPush with
          | Some m => [Exec GitAdd; Exec (GitCommit date); Exec GitPush;
                       Console (LogGitFailed (ErrExternal m))]
          | None => [Exec GitAdd; Exec (GitCommit date); Exec GitPush;
                     Console LogSynced]
          end
      end
  end.

(** The lines that the scan of the document prints on the page's console:
    for each selector in turn, the money-like texts of the elements it
    selects, in document order. *)
Definition inspectEvents (el : Element) : list Event :=
  if Script.looksLikeMoney (innerText el) then
    match innerText el with
    | Some text => [Script.found text]
    | None => []
    end
  else [].

Definition scanEvents (w : World) : list Event :=
  flat_map (fun sel => flat_map inspectEvents (Script.querySelectorAll w sel))
           Script.selectors.

(** The variants of the specification's extraction result, and the one
    that each [return] of [fetchBalance] stands for: the body of a
    re-fetched call is the structured result, the page snapshot is the raw
    content sample.  No [return] stands for [Empty]. *)
Inductive Variant :=
| StructuredBalance
| RawContentSample
| Empty.

Definition variant (r : FetchResult) : Variant :=
  match r with
  | ApiResponse _ => StructuredBalance
  | PageLoaded _ => RawContentSample
  end.

(** How often the code unit [c] occurs in [s]. *)
Definition occurrences (c : N) (s : jsstring) : nat :=
  List.length (filter (N.eqb c) s).

(** The substrings that make a URL worth probing. *)
Definition balanceWords : list jsstring :=
  [lit "balance"; lit "credit"; lit "quota"].

(** The events that a run of [fetchBalance] may add: those of the browser
    and of the console, and the re-fetch of a URL that is the name of one
    of [calls] and holds one of the [balanceWords]. *)
Definition fetchEvent (calls : list ApiCall) (e : Event) : Prop :=
  match e with
  | Console _ | PageConsole _ | BrowserLaunch | BrowserNewPage
  | PageSetCookie _ | PageGoto _ | PageWaitForSelector | BrowserClose => True
  | PageFetch u =>
      Script.isBalanceUrl u = true /\ In u (map callName calls)
  | ConsoleError _ | WriteFile _ | Exec _ | ProcessExit _ => False
  end.

(** The events that change something outside the process: the write of the
    balance file and the git commands. *)
Definition mutates (e : Event) : bool :=
  match e with
  | WriteFile _ | Exec _ => true
  | _ => false
  end.

Definition gitCommands (date : jsstring) : list GitCmd :=
  [GitAdd; GitCommit date; GitPush].

Definition text (file : option jsstring) : jsstring :=
  match file with
  | Some t => t
  | None => []
  end.

(** One invocation of [saveToGitHub] in a fresh process, from the balance
    file to the balance file, and a series of them. *)
Definition saveOnce (JSON_stringify : JsValue -> jsstring)
    (file : option jsstring) (run : World * JsValue) : option jsstring :=
  balanceFile
    (snd (Script.saveToGitHub JSON_stringify (fst run) (snd run)
            (Script.start file))).

Definition saveEach (JSON_stringify : JsValue -> jsstring)
    (runs : list (World * JsValue)) (file : option jsstring)
  : option jsstring :=
  fold_left (saveOnce JSON_stringify) runs file.

(** The section that the run [run] writes, with its separator. *)
Definition sectionOf (JSON_stringify : JsValue -> jsstring)
    (run : World * JsValue) : jsstring :=
  Script.newSection JSON_stringify (Script.stamp (clock (fst run) 0)) (snd run)
  ++ Script.separator.

(** ** Sample worlds *)

Module Sample.

Definition cookieJson : JsValue :=
  JObj [(lit "cookie", JStr (lit "sid=abc; uid=42"))].

Definition balanceText : jsstring := Script.yen ++ lit "128.50".

Definition balanceElement : Element :=
  {| tagName := lit "span";
     classAttr := Some (lit "balance-amount");
     innerText := Some balanceText |}.

Definition balanceUrl : jsstring :=
  lit "https://platform.minimaxi.com/api/account/balance".

Definition balanceBody : JsValue :=
  JObj [(lit "balance", JStr (lit "128.50"))].

(** What the specification expects from the scan of the document. *)
Definition structuredFromDom : JsValue :=
  JObj [(lit "amount", JNum (Finite (257 # 2)));
        (lit "source", JStr balanceText)].

Definition isoClock (k : nat) : jsstring :=
  lit "2024-05-01T10:00:0" ++ [N.of_nat (48 + k)] ++ lit ".000Z".

(** A configured cookie file, a page that shows the balance in a
    [balance-amount] element, no recorded request, everything else
    working. *)
Definition domOnly : World :=
  {| cookieFile := Parsed cookieJson;
     MINIMAX_COOKIE := None;
     clock := isoClock;
     launchError := None;
     stepError := fun _ => None;
     closeError := None;
     document := [balanceElement];
     bodyInnerText := balanceText;
     resources := [];
     fetchJson := fun _ => Rejected (lit "Failed to fetch");
     writeError := None;
     git := fun _ => None |}.

(** The same page, which has also fetched its balance from an endpoint
    that answers. *)
Definition domAndNetwork : World :=
  {| cookieFile := Parsed cookieJson;
     MINIMAX_COOKIE := None;
     clock := isoClock;
     launchError := None;
     stepError := fun _ => None;
     closeError := None;
     document := [balanceElement];
     bodyInnerText := balanceText;
     resources := [{| entryName := balanceUrl; initiatorType := lit "fetch" |}];
     fetchJson := fun u => if JsString.eqb u balanceUrl then Body balanceBody
                           else Rejected (lit "Failed to fetch");
     writeError := None;
     git := fun _ => None |}.

(** A page with no element, no text and no recorded request. *)
Definition blankPage : World :=
  {| cookieFile := Parsed cookieJson;
     MINIMAX_COOKIE := None;
     clock := isoClock;
     launchError := None;
     stepError := fun _ => None;
     closeError := None;
     document := [];
     bodyInnerText := [];
     resources := [];
     fetchJson := fun _ => Rejected (lit "Failed to fetch");
     writeError := None;
     git := fun _ => None |}.

(** No cookie file and no environment variable. *)
Definition noCredential : World :=
  {| cookieFile := NoFile;
     MINIMAX_COOKIE := None;
     clock := isoClock;
     launchError := None;
     stepError := fun _ => None;
     closeError := None;
     document := [balanceElement];
     bodyInnerText := balanceText;
     resources := [];
     fetchJson := fun _ => Rejected (lit "Failed to fetch");
     writeError := None;
     git := fun _ => None |}.

(** A cookie file that is not JSON, and the environment variable set. *)
Definition brokenFile : World :=
  {| cookieFile := Malformed (lit "{cookie: sid=abc}");
     MINIMAX_COOKIE := Some (lit "sid=abc; uid=42");
     clock := isoClock;
     launchError := None;
     stepError := fun _ => None;
     closeError := None;
     document := [balanceElement];
     bodyInnerText := balanceText;
     resources := [];
     fetchJson := fun _ => Rejected (lit "Failed to fetch");
     writeError := None;
     git := fun _ => None |}.

(** The page of [domOnly], with a remote that cannot be reached. *)
Definition offline : World :=
  {| cookieFile := Parsed cookieJson;
     MINIMAX_COOKIE := None;
     clock := isoClock;
     launchError := None;
     stepError := fun _ => None;
     closeError := None;
     document := [balanceElement];
     bodyInnerText := balanceText;
     resources := [];
     fetchJson := fun _ => Rejected (lit "Failed to fetch");
     writeError := None;
     git := fun cmd => match cmd with
                       | GitPush => Some (lit "Command failed: git push origin main")
                       | _ => None
                       end |}.

Definition quotaUrl : jsstring :=
  lit "https://platform.minimaxi.com/api/quota".

Definition quotaCall : ApiCall :=
  {| callName := quotaUrl; callType := lit "xhr" |}.

Definition balanceCall : ApiCall :=
  {| callName := balanceUrl; callType := lit "fetch" |}.

(** The page has asked two endpoints; re-fetching the first is refused,
    the second answers. *)
Definition flaky : World :=
  {| cookieFile := Parsed cookieJson;
     MINIMAX_COOKIE := None;
     clock := isoClock;
     launchError := None;
     stepError := fun _ => None;
     closeError := None;
     document := [];
     bodyInnerText := lit "loading";
     resources := [{| entryName := quotaUrl; initiatorType := lit "xhr" |};
                   {| entryName := balanceUrl; initiatorType := lit "fetch" |}];
     fetchJson := fun u => if JsString.eqb u balanceUrl then Body balanceBody
                           else Rejected (lit "403");
     writeError := None;
     git := fun _ => None |}.

(** The navigation does not settle within its 30 seconds. *)
Definition stalled : World :=
  {| cookieFile := Parsed cookieJson;
     MINIMAX_COOKIE := None;
     clock := isoClock;
     launchError := None;
     stepError := fun st => match st with
                            | Goto => Some (lit "Navigation timeout of 30000 ms exceeded")
                            | _ => None
                            end;
     closeError := None;
     document := [];
     bodyInnerText := [];
     resources := [];
     fetchJson := fun _ => Rejected (lit "Failed to fetch");
     writeError := None;
     git := fun _ => None |}.

(** A cookie file without the [cookie] field, and the environment variable
    set. *)
Definition emptyObjectFile : World :=
  {| cookieFile := Parsed (JObj []);
     MINIMAX_COOKIE := Some (lit "sid=abc; uid=42");
     clock := isoClock;
     launchError := None;
     stepError := fun _ => None;
     closeError := None;
     document := [balanceElement];
     bodyInnerText := balanceText;
     resources := [];
     fetchJson := fun _ => Rejected (lit "Failed to fetch");
     writeError := None;
     git := fun _ => None |}.

(** A cookie file whose [cookie] field is a number. *)
Definition numericCookie : World :=
  {| cookieFile := Parsed (JObj [(lit "cookie", JNum (Finite (42 # 1)))]);
     MINIMAX_COOKIE := None;
     clock := isoClock;
     launchError := None;
     stepError := fun _ => None;
     closeError := None;
     document := [balanceElement];
     bodyInnerText := balanceText;
     resources := [];
     fetchJson := fun _ => Rejected (lit "Failed to fetch");
     writeError := None;
     git := fun _ => None |}.


(** The page of [domAndNetwork], with a browser that fails to close. *)
Definition closeFails : World :=
  {| cookieFile := Parsed cookieJson;
     MINIMAX_COOKIE := None;
     clock := isoClock;
     launchError := None;
     stepError := fun _ => None;
     closeError := Some (lit "Protocol error: Target closed");
     document := [balanceElement];
     bodyInnerText := balanceText;
     resources := [{| entryName := balanceUrl; initiatorType := lit "fetch" |}];
     fetchJson := fun u => if JsString.eqb u balanceUrl then Body balanceBody
                           else Rejected (lit "Failed to fetch");
     writeError := None;
     git := fun _ => None |}.

(** A stand-in for the pretty-printer where a concrete one is needed. *)
Definition braces (_ : JsValue) : jsstring := lit "{}".

End Sample.

(** * Properties *)

(** ** Strings *)

Module JsStringFacts.
Import JsString.

Lemma eqb_eq (a b : t) : eqb a b = true <-> a = b.
Proof.
  unfold eqb. destruct (list_eq_dec N.eq_dec a b); split; congruence.
Qed.

Lemma eqb_refl (a : t) : eqb a a = true.
Proof. now apply eqb_eq. Qed.

Lemma split_not_nil (sep : N) (s : t) : split sep s <> [].
Proof.
  destruct s as [|c s]; simpl; [discriminate|].
  destruct (N.eqb c sep); [discriminate|].
  destruct (split sep s); discriminate.
Qed.

(** The first piece ends at the first separator. *)
Lemma split_at_first (sep : N) (n v : t) :
  ~ In sep n -> split sep (n ++ sep :: v) = n :: split sep v.
Proof.
  induction n as [|a n IH]; intros Hn; simpl.
  - now rewrite N.eqb_refl.
  - destruct (N.eqb_spec a sep) as [->|Hne].
    + exfalso. apply Hn. now left.
    + rewrite IH; [reflexivity|]. intros Hin. apply Hn. now right.
Qed.

Lemma split_no_sep (sep : N) (s : t) :
  ~ In sep s -> split sep s = [s].
Proof.
  induction s as [|a s IH]; intros Hs; simpl; [reflexivity|].
  destruct (N.eqb_spec a sep) as [->|Hne].
  - exfalso. apply Hs. now left.
  - rewrite IH; [reflexivity|]. intros Hin. apply Hs. now right.
Qed.

(** Joining the pieces with the separator gives the string back. *)
Lemma join_split (sep : N) (s : t) : join sep (split sep s) = s.
Proof.
  induction s as [|c s IH]; [reflexivity|].
  simpl split. destruct (N.eqb_spec c sep) as [->|Hne].
  - pose proof (split_not_nil sep s) as Hnil.
    destruct (split sep s) as [|h r]; [contradiction|].
    simpl. simpl in IH. now rewrite IH.
  - pose proof (split_not_nil sep s) as Hnil.
    destruct (split sep s) as [|h r]; [contradiction|].
    destruct r as [|h' r]; simpl in *; now rewrite <- IH.
Qed.

Lemma split_pieces_free (sep : N) (s : t) :
  Forall (fun piece => ~ In sep piece) (split sep s).
Proof.
  induction s as [|c s IH]; simpl.
  - constructor; [intros []|constructor].
  - destruct (N.eqb_spec c sep) as [->|Hne].
    + constructor; [intros []|exact IH].
    + destruct (split sep s) as [|h r]; [repeat constructor; intros [H|[]]; congruence|].
      inversion IH as [|? ? Hh Hr]; subst. constructor; [|exact Hr].
      intros [H|H]; [congruence|contradiction].
Qed.

Lemma substring0_prefix (n : nat) (s : t) :
  exists rest, s = substring0 n s ++ rest.
Proof.
  exists (skipn n s). unfold substring0. now rewrite firstn_skipn.
Qed.

Lemma substring0_length (n : nat) (s : t) :
  List.length (substring0 n s) <= n.
Proof. unfold substring0. apply firstn_le_length. Qed.

Example split_keeps_empty_pieces :
  split 59 (lit "a;;b;") = [lit "a"; []; lit "b"; []].
Proof. reflexivity. Qed.

Example trim_both_ends : trim (lit "  uid=42 ") = lit "uid=42".
Proof. reflexivity. Qed.

Example amount_needs_two_decimals :
  testAmount (lit "total 128.50 left") = true
  /\ testAmount (lit "v1.5") = false
  /\ testAmount (lit ".50") = false
  /\ testAmount (lit "12.345") = true.
Proof. repeat split. Qed.

End JsStringFacts.

(** ** Cookie injection *)

Section CookieInjection.
Import JsString JsStringFacts Script.

Lemma toCookie_domain (c : jsstring) : domain (toCookie c) = cookieDomain.
Proof.
  unfold toCookie. now destruct (split 61 (trim c)).
Qed.

Lemma toCookie_name_value (c n v : jsstring) :
  trim c = n ++ 61%N :: v -> ~ In 61%N n ->
  toCookie c = {| name := n; value := v; domain := cookieDomain |}.
Proof.
  intros Ht Hn. unfold toCookie.
  rewrite Ht, split_at_first by exact Hn.
  now rewrite join_split.
Qed.

Lemma toCookie_bare (c : jsstring) :
  ~ In 61%N (trim c) ->
  toCookie c = {| name := trim c; value := []; domain := cookieDomain |}.
Proof.
  intros Hn. unfold toCookie. now rewrite split_no_sep by exact Hn.
Qed.

(** C10. The cookie string is cut at every [';'] (joining the pieces with
    [';'] gives it back and no piece holds one), each piece gives one
    browser cookie, a trimmed piece [n=v] whose [n] has no ['='] gives the
    cookie named [n] with value [v] whatever ['='] characters [v] holds, and
    every cookie has the domain ['.minimaxi.com']. *)
Theorem cookies_split_on_first_equals (cookie : jsstring) :
  let pieces := split 59 cookie in
  join 59 pieces = cookie
  /\ Forall (fun piece => ~ In 59%N piece) pieces
  /\ parseCookies cookie = map toCookie pieces
  /\ (forall c n v, trim c = n ++ 61%N :: v -> ~ In 61%N n ->
        toCookie c = {| name := n; value := v; domain := lit ".minimaxi.com" |})
  /\ Forall (fun k => domain k = lit ".minimaxi.com") (parseCookies cookie).
Proof.
  cbv zeta. repeat split.
  - apply join_split.
  - apply split_pieces_free.
  - intros c n v. apply toCookie_name_value.
  - unfold parseCookies. apply Forall_forall. intros k Hk.
    apply in_map_iff in Hk as [c [<- _]]. apply toCookie_domain.
Qed.

Example parseCookies_of_scenario :
  parseCookies (lit "sid=abc; uid=42")
  = [{| name := lit "sid"; value := lit "abc"; domain := lit ".minimaxi.com" |};
     {| name := lit "uid"; value := lit "42"; domain := lit ".minimaxi.com" |}].
Proof. reflexivity. Qed.

Lemma cookies_split_on_first_equals_witness :
  trim (lit " tok=a=b==") = lit "tok" ++ 61%N :: lit "a=b=="
  /\ ~ In 61%N (lit "tok")
  /\ toCookie (lit " tok=a=b==")
     = {| name := lit "tok"; value := lit "a=b==";
          domain := lit ".minimaxi.com" |}.
Proof.
  assert (Ht : trim (lit " tok=a=b==") = lit "tok" ++ 61%N :: lit "a=b==")
    by reflexivity.
  assert (Hn : ~ In 61%N (lit "tok"))
    by (cbv; intros [H|[H|[H|[]]]]; discriminate).
  split; [exact Ht|]. split; [exact Hn|].
  exact (proj1 (proj2 (proj2 (proj2
    (cookies_split_on_first_equals (lit "sid=abc; tok=a=b==")))))
    _ _ _ Ht Hn).
Defined.

End CookieInjection.

(** ** The monad: what a computation adds to the trace *)

Section MonadFacts.

Lemma extend_nil (s : State) : extend s [] = s.
Proof. destruct s. unfold extend. simpl. now rewrite app_nil_r. Qed.

Lemma extend_extend (s : State) (a b : list Event) :
  extend (extend s a) b = extend s (a ++ b).
Proof. unfold extend. simpl. now rewrite app_assoc. Qed.

Lemma emit_extend (e : Event) (s : State) :
  emit e s = (Return tt, extend s [e]).
Proof. reflexivity. Qed.

Lemma returns_ret {A} (a : A) : returns (ret a) a.
Proof. intros s. exists []. now rewrite extend_nil. Qed.

Lemma returns_emit (e : Event) : returns (emit e) tt.
Proof. intros s. now exists [e]. Qed.

Lemma returns_bind {A B} (m : M A) (k : A -> M B) (a : A) (b : B) :
  returns m a -> returns (k a) b -> returns (bind m k) b.
Proof.
  intros Hm Hk s. destruct (Hm s) as [e1 H1].
  destruct (Hk (extend s e1)) as [e2 H2].
  exists (e1 ++ e2). unfold bind. now rewrite H1, H2, extend_extend.
Qed.

Lemma returns_forEach {A} (xs : list A) (body : A -> M unit) :
  (forall x, returns (body x) tt) -> returns (forEach xs body) tt.
Proof.
  intros Hb. induction xs as [|x xs IH]; simpl.
  - apply returns_ret.
  - eapply returns_bind; [apply Hb | exact IH].
Qed.

Lemma appends_ret {A} P (a : A) : appends P (ret a).
Proof. intros s. exists []. now rewrite extend_nil. Qed.

Lemma appends_throw {A} P e : appends P (@throw A e).
Proof. intros s. exists []. now rewrite extend_nil. Qed.

Lemma appends_emit (P : Event -> Prop) e : P e -> appends P (emit e).
Proof. intros He s. exists [e]. split; [reflexivity|]. now constructor. Qed.

Lemma appends_bind {A B} P (m : M A) (k : A -> M B) :
  appends P m -> (forall a, appends P (k a)) -> appends P (bind m k).
Proof.
  intros Hm Hk s. destruct (Hm s) as [e1 [H1 F1]]. unfold bind.
  destruct (m s) as [[a|e] s1]; simpl in H1; subst s1.
  - destruct (Hk a (extend s e1)) as [e2 [H2 F2]].
    exists (e1 ++ e2). rewrite H2, extend_extend. split; [reflexivity|].
    apply Forall_app. now split.
  - now exists e1.
Qed.

Lemma appends_tryCatch {A} P (body : M A) (handler : JsError -> M A) :
  appends P body -> (forall e, appends P (handler e)) ->
  appends P (tryCatch body handler).
Proof.
  intros Hm Hk s. destruct (Hm s) as [e1 [H1 F1]]. unfold tryCatch.
  destruct (body s) as [[a|e] s1]; simpl in H1; subst s1.
  - now exists e1.
  - destruct (Hk e (extend s e1)) as [e2 [H2 F2]].
    exists (e1 ++ e2). rewrite H2, extend_extend. split; [reflexivity|].
    apply Forall_app. now split.
Qed.

Lemma appends_forEach {A} P (xs : list A) (body : A -> M unit) :
  (forall x, appends P (body x)) -> appends P (forEach xs body).
Proof.
  intros Hb. induction xs as [|x xs IH]; simpl.
  - apply appends_ret.
  - apply appends_bind; [apply Hb | intros _; exact IH].
Qed.

End MonadFacts.

Create HintDb script discriminated.
#[export] Hint Resolve appends_ret appends_throw appends_emit appends_bind
  appends_tryCatch appends_forEach : script.

(** Runs the first statement of a block whose outcome is known. *)
Ltac run_with H :=
  unfold bind at 1; rewrite H; cbv beta iota.
Ltac run_emit :=
  unfold bind at 1; rewrite emit_extend; cbv beta iota.

(** ** The browser session *)

Section Session.
Import Script.

Lemma appends_await P w st : appends P (await w st).
Proof. unfold await. destruct (stepError w st); auto with script. Qed.

Lemma appends_inspect (el : Element) : appends inSession (inspect el).
Proof.
  unfold inspect. destruct (looksLikeMoney (innerText el));
    [destruct (innerText el)|]; auto with script.
  apply appends_emit. reflexivity.
Qed.

Lemma appends_scanDocument w : appends inSession (scanDocument w).
Proof.
  unfold scanDocument. apply appends_bind; [|auto with script].
  apply appends_forEach. intros sel. apply appends_forEach.
  intros el. apply appends_inspect.
Qed.

Lemma appends_refetch w u : appends inSession (refetch w u).
Proof.
  unfold refetch. apply appends_bind; [now apply appends_emit|].
  intros _. destruct (fetchJson w u); auto with script.
Qed.

Lemma appends_probe w calls : appends inSession (probe w calls).
Proof.
  induction calls as [|call rest IH]; simpl; [auto with script|].
  destruct (isBalanceUrl (callName call)); [|exact IH].
  apply appends_bind.
  - apply appends_tryCatch.
    + apply appends_bind; [apply appends_refetch|]. intros r.
      apply appends_bind; [now apply appends_emit | auto with script].
    + intros e. apply appends_bind; [now apply appends_emit | auto with script].
  - intros [r|]; [auto with script | exact IH].
Qed.

Lemma appends_extract w : appends inSession (extract w).
Proof.
  unfold extract.
  apply appends_bind; [apply appends_await | intros _].
  apply appends_bind; [apply appends_scanDocument | intros content].
  apply appends_bind; [now apply appends_emit | intros _].
  apply appends_bind; [apply appends_await | intros _].
  apply appends_bind; [now apply appends_emit | intros _].
  apply appends_bind; [apply appends_probe | intros [r|]]; auto with script.
Qed.

Lemma appends_session w cookie : appends inSession (session w cookie).
Proof.
  unfold session.
  apply appends_bind; [now apply appends_emit | intros _].
  apply appends_bind; [apply appends_await | intros _].
  apply appends_bind; [destruct cookie; simpl; auto with script | intros cs].
  apply appends_bind; [now apply appends_emit | intros _].
  apply appends_bind; [apply appends_await | intros _].
  apply appends_bind; [now apply appends_emit | intros _].
  apply appends_bind; [apply appends_await | intros _].
  apply appends_bind; [now apply appends_emit | intros _].
  apply appends_bind; [apply appends_await | intros _].
  apply appends_extract.
Qed.

Lemma closes_app (a b : list Event) : closes (a ++ b) = closes a + closes b.
Proof. unfold closes. now rewrite filter_app, length_app. Qed.

Lemma closes_inSession (evs : list Event) :
  Forall inSession evs -> closes evs = 0.
Proof.
  unfold closes. induction 1 as [|e evs He _ IH]; [reflexivity|].
  simpl. destruct e; try exact IH. discriminate He.
Qed.

(** C2. When the cookie is there and the browser is launched, every run of
    [fetchBalance], whatever its outcome (a result or an exception), adds to
    the trace the launch, then events of the session that are neither a
    launch nor a close, then one close, which is the last event before
    [fetchBalance] gives control back: the browser is closed exactly
    once. *)
Theorem browser_closed_exactly_once (w : World) (s : State)
    (cookie : JsValue) :
  getCookie w s = (Return cookie, s) ->
  Js.truthy cookie = true ->
  launchError w = None ->
  exists during,
    trace (snd (fetchBalance w s))
    = trace s ++ BrowserLaunch :: during ++ [BrowserClose]
    /\ Forall inSession during
    /\ closes (BrowserLaunch :: during ++ [BrowserClose]) = 1.
Proof.
  intros Hcookie Htruthy Hlaunch.
  unfold fetchBalance. run_with Hcookie. rewrite Htruthy. cbn [negb].
  unfold launch. rewrite Hlaunch. run_emit.
  destruct (appends_session w cookie (extend s [BrowserLaunch]))
    as [during [Hs Hd]].
  exists during. split; [|split].
  - unfold tryFinally.
    destruct (session w cookie (extend s [BrowserLaunch])) as [r s1].
    simpl in Hs. subst s1. unfold close. run_emit.
    destruct (closeError w); simpl;
      destruct r; simpl; now rewrite <- !app_assoc.
  - exact Hd.
  - change (BrowserLaunch :: during ++ [BrowserClose])
      with ([BrowserLaunch] ++ during ++ [BrowserClose]).
    rewrite !closes_app, (closes_inSession Hd). reflexivity.
Qed.

(** *** The paths on which every call resolves *)

Lemma healthy_launch w : healthy w = true -> launchError w = None.
Proof.
  unfold healthy. destruct (launchError w); [discriminate|reflexivity].
Qed.

Lemma healthy_close w : healthy w = true -> closeError w = None.
Proof.
  unfold healthy. destruct (closeError w); [|reflexivity].
  rewrite andb_false_r. discriminate.
Qed.

Lemma healthy_step w st : healthy w = true -> stepError w st = None.
Proof.
  unfold healthy. intros H.
  apply andb_prop in H as [H _]. apply andb_prop in H as [_ H].
  assert (Hin : In st steps) by (destruct st; simpl; tauto).
  pose proof (proj1 (forallb_forall _ _) H st Hin) as Hst.
  simpl in Hst. now destruct (stepError w st).
Qed.

Lemma returns_await w st : stepError w st = None -> returns (await w st) tt.
Proof. intros H. unfold await. rewrite H. apply returns_ret. Qed.

Lemma returns_inspect (el : Element) : returns (inspect el) tt.
Proof.
  unfold inspect. destruct (looksLikeMoney (innerText el));
    [destruct (innerText el)|];
    first [apply returns_emit | apply returns_ret].
Qed.

Lemma returns_scanDocument w : returns (scanDocument w) (bodyInnerText w).
Proof.
  unfold scanDocument. eapply returns_bind; [|apply returns_ret].
  apply returns_forEach. intros sel. apply returns_forEach.
  apply returns_inspect.
Qed.

Lemma returns_tryFinally {A} (body : M A) (final : M unit) (a : A) :
  returns body a -> returns final tt -> returns (tryFinally body final) a.
Proof.
  intros Hb Hf s. destruct (Hb s) as [e1 H1].
  destruct (Hf (extend s e1)) as [e2 H2].
  exists (e1 ++ e2). unfold tryFinally. now rewrite H1, H2, extend_extend.
Qed.

(** When no call answers, the loop runs to its end. *)
Lemma probe_falls_through w calls :
  noAnswer w calls = true -> returns (probe w calls) None.
Proof.
  induction calls as [|call rest IH]; simpl; intros H.
  - apply returns_ret.
  - apply andb_prop in H as [Hcall Hrest]. specialize (IH Hrest).
    unfold answers in Hcall.
    destruct (isBalanceUrl (callName call)); [|exact IH].
    simpl in Hcall.
    destruct (fetchJson w (callName call)) as [message|json] eqn:Hfetch;
      [|discriminate].
    intros s. destruct (IH (extend s [PageFetch (callName call);
        Console (LogFetchFailed (ErrExternal message))])) as [evs Hevs].
    eexists. unfold bind at 1, tryCatch, refetch.
    unfold bind at 1. run_emit. rewrite Hfetch. unfold throw.
    run_emit. unfold ret at 1. rewrite extend_extend. simpl app.
    rewrite Hevs, extend_extend. reflexivity.
Qed.

(** The first call that answers ends the loop with its body. *)
Lemma probe_first_answer w before call after response :
  noAnswer w before = true ->
  isBalanceUrl (callName call) = true ->
  fetchJson w (callName call) = Body response ->
  returns (probe w (before ++ call :: after)) (Some response).
Proof.
  intros Hbefore Hurl Hfetch.
  induction before as [|c before IH]; simpl.
  - rewrite Hurl. intros s. eexists.
    unfold bind at 1, tryCatch, refetch.
    unfold bind at 1. run_emit. rewrite Hfetch. unfold ret at 1.
    run_emit. unfold ret. rewrite extend_extend. reflexivity.
  - simpl in Hbefore. apply andb_prop in Hbefore as [Hc Hrest].
    specialize (IH Hrest). unfold answers in Hc.
    destruct (isBalanceUrl (callName c)); [|exact IH].
    simpl in Hc.
    destruct (fetchJson w (callName c)) as [message|json] eqn:Hc';
      [|discriminate].
    intros s. destruct (IH (extend s [PageFetch (callName c);
        Console (LogFetchFailed (ErrExternal message))])) as [evs Hevs].
    eexists. unfold bind at 1, tryCatch, refetch.
    unfold bind at 1. run_emit. rewrite Hc'. unfold throw.
    run_emit. unfold ret at 1. rewrite extend_extend. simpl app.
    rewrite Hevs, extend_extend. reflexivity.
Qed.

Lemma probe_never_throws w calls s :
  exists r, fst (probe w calls s) = Return r.
Proof.
  revert s. induction calls as [|call rest IH]; intros s; simpl.
  - now exists None.
  - destruct (isBalanceUrl (callName call)); [|apply IH].
    unfold bind at 1, tryCatch, refetch. unfold bind at 1. run_emit.
    destruct (fetchJson w (callName call)) as [message|json].
    + unfold throw. run_emit. unfold ret at 1. apply IH.
    + unfold ret at 1. run_emit. unfold ret. now exists (Some json).
Qed.

Lemma returns_extract w (r : option JsValue) :
  stepError w EvaluateContent = None ->
  stepError w EvaluateApiCalls = None ->
  returns (probe w (recentCalls w)) r ->
  returns (extract w)
    match r with
    | Some response => ApiResponse response
    | None => PageLoaded (JsString.substring0 500 (bodyInnerText w))
    end.
Proof.
  intros Hc Ha Hp. unfold extract.
  eapply returns_bind; [now apply returns_await|].
  eapply returns_bind; [apply returns_scanDocument|].
  eapply returns_bind; [apply returns_emit|].
  eapply returns_bind; [now apply returns_await|].
  eapply returns_bind; [apply returns_emit|].
  eapply returns_bind; [exact Hp|].
  destruct r; apply returns_ret.
Qed.

Lemma returns_session w cookie (r : FetchResult) :
  healthy w = true -> returns (extract w) r ->
  returns (session w (JStr cookie)) r.
Proof.
  intros Hw He. unfold session.
  eapply returns_bind; [apply returns_emit|].
  eapply returns_bind; [apply returns_await, healthy_step, Hw|].
  eapply returns_bind; [apply returns_ret|].
  eapply returns_bind; [apply returns_emit|].
  eapply returns_bind; [apply returns_await, healthy_step, Hw|].
  eapply returns_bind; [apply returns_emit|].
  eapply returns_bind; [apply returns_await, healthy_step, Hw|].
  eapply returns_bind; [apply returns_emit|].
  eapply returns_bind; [apply returns_await, healthy_step, Hw|].
  exact He.
Qed.

Lemma returns_close w : closeError w = None -> returns (close w) tt.
Proof.
  intros H. unfold close. eapply returns_bind; [apply returns_emit|].
  rewrite H. apply returns_ret.
Qed.

Lemma fetchBalance_returns w s cookie (r : FetchResult) :
  getCookie w s = (Return (JStr cookie), s) -> cookie <> [] ->
  healthy w = true -> returns (extract w) r ->
  exists evs, fetchBalance w s = (Return r, extend s evs).
Proof.
  intros Hcookie Hne Hw He. unfold fetchBalance. run_with Hcookie.
  replace (Js.truthy (JStr cookie)) with true
    by (destruct cookie; [contradiction|reflexivity]).
  cbn [negb]. unfold launch. rewrite (healthy_launch w Hw). run_emit.
  destruct (returns_tryFinally (returns_session cookie Hw He)
              (returns_close w (healthy_close w Hw))
              (extend s [BrowserLaunch])) as [evs Hevs].
  exists ([BrowserLaunch] ++ evs). now rewrite Hevs, extend_extend.
Qed.

(** *** What the scan of the document does *)

Lemma forEach_events {A} (xs : list A) (body : A -> M unit)
    (f : A -> list Event) :
  (forall x s, body x s = (Return tt, extend s (f x))) ->
  forall s, forEach xs body s = (Return tt, extend s (flat_map f xs)).
Proof.
  intros Hb. induction xs as [|x xs IH]; intros s; simpl.
  - unfold ret. now rewrite extend_nil.
  - unfold bind. now rewrite Hb, IH, extend_extend.
Qed.

Lemma inspect_events (el : Element) (s : State) :
  inspect el s = (Return tt, extend s (inspectEvents el)).
Proof.
  unfold inspect, inspectEvents.
  destruct (looksLikeMoney (innerText el)); [destruct (innerText el)|];
    first [reflexivity | unfold ret; now rewrite extend_nil].
Qed.

Lemma scanDocument_events w (s : State) :
  scanDocument w s = (Return (bodyInnerText w), extend s (scanEvents w)).
Proof.
  unfold scanDocument, scanEvents. unfold bind.
  rewrite (forEach_events selectors _
             (fun sel => flat_map inspectEvents (querySelectorAll w sel))).
  - reflexivity.
  - intros sel s'. apply forEach_events. apply inspect_events.
Qed.

Lemma balance_match_is_printed w (el : Element) (c text : jsstring) :
  In el (document w) ->
  classAttr el = Some c -> JsString.includes c (lit "balance") = true ->
  innerText el = Some text -> looksLikeMoney (Some text) = true ->
  In (found text) (scanEvents w).
Proof.
  intros Hel Hc Hb Ht Hm. unfold scanEvents. apply in_flat_map.
  exists (ClassHas (lit "balance")). split; [now left|].
  apply in_flat_map. exists el. split.
  - unfold querySelectorAll. apply filter_In. split; [exact Hel|].
    unfold matches. now rewrite Hc.
  - unfold inspectEvents. rewrite Ht, Hm. now left.
Qed.

(** *** What [fetchBalance] can return *)

Lemma ensures_ret {A} (Q : A -> Prop) (a : A) : Q a -> ensures Q (ret a).
Proof. intros H s b [= <-]. exact H. Qed.

Lemma ensures_throw {A} (Q : A -> Prop) e : ensures Q (@throw A e).
Proof. intros s b [=]. Qed.

Lemma ensures_bind {A B} (P : A -> Prop) (Q : B -> Prop)
    (m : M A) (k : A -> M B) :
  ensures P m -> (forall a, P a -> ensures Q (k a)) -> ensures Q (bind m k).
Proof.
  intros Hm Hk s b. unfold bind. specialize (Hm s).
  destruct (m s) as [[a|e] s1]; simpl in *; [|discriminate].
  apply Hk. now apply Hm.
Qed.

Lemma ensures_then {A B} (Q : B -> Prop) (m : M A) (k : A -> M B) :
  (forall a, ensures Q (k a)) -> ensures Q (bind m k).
Proof.
  intros Hk. apply ensures_bind with (P := fun _ => True); [easy|auto].
Qed.

Lemma ensures_tryFinally {A} (Q : A -> Prop) (body : M A) (final : M unit) :
  ensures Q body -> ensures Q (tryFinally body final).
Proof.
  intros Hb s a. unfold tryFinally. specialize (Hb s).
  destruct (body s) as [r s1]. destruct (final s1) as [[[]|e] s2]; simpl in *.
  - apply Hb.
  - discriminate.
Qed.

Lemma ensures_probe w calls :
  ensures (fun r => match r with
                    | Some response => repliedBy w calls response
                    | None => True
                    end) (probe w calls).
Proof.
  induction calls as [|call rest IH]; simpl.
  - now apply ensures_ret.
  - assert (Hrest : ensures (fun r => match r with
                      | Some response => repliedBy w (call :: rest) response
                      | None => True
                      end) (probe w rest)).
    { intros s [response|] H; [|exact I].
      destruct (IH s _ H) as [c [Hin Hc]]. exists c. split; [now right|exact Hc]. }
    destruct (isBalanceUrl (callName call)) eqn:Hurl; [|exact Hrest].
    intros s r. unfold bind at 1, tryCatch, refetch. unfold bind at 1.
    run_emit.
    destruct (fetchJson w (callName call)) as [message|json] eqn:Hfetch.
    + unfold throw. run_emit. unfold ret at 1. apply Hrest.
    + unfold ret at 1. run_emit. unfold ret. simpl. intros [= <-].
      exists call. split; [now left|]. now split.
Qed.

Lemma ensures_fetchBalance w :
  ensures (fun r =>
             (exists response, repliedBy w (recentCalls w) response
                               /\ r = ApiResponse response)
             \/ r = PageLoaded (JsString.substring0 500 (bodyInnerText w)))
          (fetchBalance w).
Proof.
  unfold fetchBalance. apply ensures_then. intros cookie.
  destruct (negb (Js.truthy cookie)); [apply ensures_throw|].
  apply ensures_then. intros _. apply ensures_tryFinally.
  unfold session. do 9 (apply ensures_then; intros ?).
  unfold extract. apply ensures_then. intros _.
  eapply ensures_bind with (P := fun c => c = bodyInnerText w).
  { intros s c. rewrite scanDocument_events. now intros [= <-]. }
  intros content ->. do 3 (apply ensures_then; intros ?).
  eapply ensures_bind; [apply ensures_probe|].
  intros [response|] Hr; apply ensures_ret.
  - left. now exists response.
  - now right.
Qed.

(** The three ways out of the session, on sample worlds: a response, the
    page snapshot, and an exception of the navigation. *)
Example trace_of_a_response :
  fetchBalance Sample.domAndNetwork (start None)
  = (Return (ApiResponse Sample.balanceBody),
     extend (start None)
       [BrowserLaunch; BrowserNewPage;
        PageSetCookie (parseCookies (lit "sid=abc; uid=42"));
        PageGoto url; PageWaitForSelector;
        found Sample.balanceText; found Sample.balanceText;
        found Sample.balanceText;
        Console LogPageLoaded;
        Console (LogApiCalls [Sample.balanceCall]);
        PageFetch Sample.balanceUrl;
        Console (LogApiResponse Sample.balanceBody);
        BrowserClose]).
Proof. reflexivity. Qed.

Example trace_of_a_snapshot :
  fetchBalance Sample.blankPage (start None)
  = (Return (PageLoaded []),
     extend (start None)
       [BrowserLaunch; BrowserNewPage;
        PageSetCookie (parseCookies (lit "sid=abc; uid=42"));
        PageGoto url; PageWaitForSelector;
        Console LogPageLoaded; Console (LogApiCalls []);
        BrowserClose]).
Proof. reflexivity. Qed.

Example trace_of_a_timeout :
  fetchBalance Sample.stalled (start None)
  = (Throw (ErrExternal (lit "Navigation timeout of 30000 ms exceeded")),
     extend (start None)
       [BrowserLaunch; BrowserNewPage;
        PageSetCookie (parseCookies (lit "sid=abc; uid=42"));
        PageGoto url; BrowserClose]).
Proof. reflexivity. Qed.

Lemma browser_closed_exactly_once_witness :
  exists during,
    trace (snd (fetchBalance Sample.flaky (start None)))
    = trace (start None) ++ BrowserLaunch :: during ++ [BrowserClose]
    /\ Forall inSession during
    /\ closes (BrowserLaunch :: during ++ [BrowserClose]) = 1.
Proof.
  apply (@browser_closed_exactly_once Sample.flaky (start None)
           (JStr (lit "sid=abc; uid=42")));
    reflexivity.
Defined.

End Session.

(** ** The extraction chain *)

Section Extraction.
Import Script.

(** C3. A re-fetch that throws is caught inside the loop: the loop itself
    never throws; when the re-fetch of a balance-like call is refused, the
    failure is logged and the loop goes on with the remaining calls; and
    when no call answers, the page snapshot is what [extract] returns. *)
Theorem failed_refetch_is_skipped (w : World) :
  (forall calls s, exists r, fst (probe w calls s) = Return r)
  /\ (forall call rest message s,
        isBalanceUrl (callName call) = true ->
        fetchJson w (callName call) = Rejected message ->
        probe w (call :: rest) s
        = probe w rest
            (extend s [PageFetch (callName call);
                       Console (LogFetchFailed (ErrExternal message))]))
  /\ (forall s,
        stepError w EvaluateContent = None ->
        stepError w EvaluateApiCalls = None ->
        noAnswer w (recentCalls w) = true ->
        fst (extract w s)
        = Return (PageLoaded (JsString.substring0 500 (bodyInnerText w)))).
Proof.
  split; [|split].
  - apply probe_never_throws.
  - intros call rest message s Hurl Hfetch. simpl. rewrite Hurl.
    unfold bind at 1, tryCatch, refetch. unfold bind at 1. run_emit.
    rewrite Hfetch. unfold throw. run_emit. unfold ret at 1.
    now rewrite extend_extend.
  - intros s Hc Ha Hno.
    destruct (returns_extract w Hc Ha (probe_falls_through w _ Hno) s)
      as [evs Hevs].
    now rewrite Hevs.
Qed.

Lemma failed_refetch_is_skipped_witness :
  isBalanceUrl (callName Sample.quotaCall) = true
  /\ fetchJson Sample.flaky (callName Sample.quotaCall) = Rejected (lit "403")
  /\ fst (probe Sample.flaky [Sample.quotaCall; Sample.balanceCall]
            (start None))
     = Return (Some Sample.balanceBody).
Proof.
  assert (Hurl : isBalanceUrl (callName Sample.quotaCall) = true)
    by reflexivity.
  assert (Hfetch : fetchJson Sample.flaky (callName Sample.quotaCall)
                   = Rejected (lit "403")) by reflexivity.
  split; [exact Hurl|]. split; [exact Hfetch|].
  rewrite (proj1 (proj2 (failed_refetch_is_skipped Sample.flaky))
             _ [Sample.balanceCall] _ (start None) Hurl Hfetch).
  reflexivity.
Defined.

(** C5. When the session works and no balance-like call answers,
    [fetchBalance] returns the page snapshot: the first 500 code units of
    the text of the body, hence a prefix of that text, at most 500 long.
    This holds whatever the scan of the document finds. *)
Theorem snapshot_is_bounded_prefix (w : World) (s : State)
    (cookie : jsstring) :
  getCookie w s = (Return (JStr cookie), s) -> cookie <> [] ->
  healthy w = true ->
  noAnswer w (recentCalls w) = true ->
  exists preview rest,
    fst (fetchBalance w s) = Return (PageLoaded preview)
    /\ preview = JsString.substring0 500 (bodyInnerText w)
    /\ bodyInnerText w = preview ++ rest
    /\ List.length preview <= 500.
Proof.
  intros Hcookie Hne Hw Hno.
  destruct (JsStringFacts.substring0_prefix 500 (bodyInnerText w))
    as [rest Hrest].
  exists (JsString.substring0 500 (bodyInnerText w)), rest.
  split; [|split; [reflexivity|split]].
  - destruct (@fetchBalance_returns w s cookie _ Hcookie Hne Hw
                (returns_extract w (healthy_step w EvaluateContent Hw)
                   (healthy_step w EvaluateApiCalls Hw)
                   (probe_falls_through w _ Hno))) as [evs Hevs].
    now rewrite Hevs.
  - exact Hrest.
  - apply JsStringFacts.substring0_length.
Qed.

Lemma snapshot_is_bounded_prefix_witness :
  exists preview rest,
    fst (fetchBalance Sample.domOnly (start None)) = Return (PageLoaded preview)
    /\ preview = JsString.substring0 500 (bodyInnerText Sample.domOnly)
    /\ bodyInnerText Sample.domOnly = preview ++ rest
    /\ List.length preview <= 500.
Proof.
  apply (@snapshot_is_bounded_prefix Sample.domOnly (start None)
           (lit "sid=abc; uid=42")).
  - reflexivity.
  - discriminate.
  - reflexivity.
  - reflexivity.
Defined.

(** C1, as the script has it.  When the session works and the recent calls
    hold a balance-like call that answers, [fetchBalance] returns the body
    of the first such call, whatever the document holds.  The scan of the
    document only prints on the page's console: it returns the text of the
    body, and an element whose class contains [balance] and whose text
    looks like money has its text printed. *)
Theorem first_answer_wins (w : World) (s : State) (cookie : jsstring)
    (before after : list ApiCall) (call : ApiCall) (response : JsValue) :
  getCookie w s = (Return (JStr cookie), s) -> cookie <> [] ->
  healthy w = true ->
  recentCalls w = before ++ call :: after ->
  noAnswer w before = true ->
  isBalanceUrl (callName call) = true ->
  fetchJson w (callName call) = Body response ->
  fst (fetchBalance w s) = Return (ApiResponse response)
  /\ (forall s', scanDocument w s'
                 = (Return (bodyInnerText w), extend s' (scanEvents w)))
  /\ (forall el c text,
        In el (document w) ->
        classAttr el = Some c -> JsString.includes c (lit "balance") = true ->
        innerText el = Some text -> looksLikeMoney (Some text) = true ->
        In (found text) (scanEvents w)).
Proof.
  intros Hcookie Hne Hw Hcalls Hbefore Hurl Hfetch.
  split; [|split].
  - pose proof (probe_first_answer w before call after Hbefore Hurl Hfetch)
      as Hp.
    rewrite <- Hcalls in Hp.
    destruct (@fetchBalance_returns w s cookie _ Hcookie Hne Hw
                (returns_extract w (healthy_step w EvaluateContent Hw)
                   (healthy_step w EvaluateApiCalls Hw) Hp)) as [evs Hevs].
    now rewrite Hevs.
  - apply scanDocument_events.
  - apply balance_match_is_printed.
Qed.

Lemma first_answer_wins_witness :
  fst (fetchBalance Sample.domAndNetwork (start None))
  = Return (ApiResponse Sample.balanceBody)
  /\ In (found Sample.balanceText) (scanEvents Sample.domAndNetwork).
Proof.
  destruct (@first_answer_wins Sample.domAndNetwork (start None)
              (lit "sid=abc; uid=42") [] [] Sample.balanceCall
              Sample.balanceBody)
    as [Hr [_ Hprinted]];
    try reflexivity; try discriminate.
  split; [exact Hr|].
  apply (Hprinted Sample.balanceElement (lit "balance-amount"));
    first [reflexivity | now left].
Defined.

(** The page shows [¥128.50] in a [balance-amount] element and has fetched
    a balance endpoint that answers: the result is the body of that
    endpoint, obtained by re-fetching it, and not a value built from the
    element.  Without the endpoint the result is the page snapshot. *)
Lemma dom_match_does_not_win :
  In Sample.balanceElement (document Sample.domAndNetwork)
  /\ matches (ClassHas (lit "balance")) Sample.balanceElement = true
  /\ innerText Sample.balanceElement = Some (yen ++ lit "128.50")
  /\ answers Sample.domAndNetwork Sample.balanceCall = true
  /\ In Sample.balanceCall (recentCalls Sample.domAndNetwork)
  /\ fst (fetchBalance Sample.domAndNetwork (start None))
     = Return (ApiResponse Sample.balanceBody)
  /\ In (PageFetch Sample.balanceUrl)
        (trace (snd (fetchBalance Sample.domAndNetwork (start None))))
  /\ toJs (ApiResponse Sample.balanceBody) <> Sample.structuredFromDom
  /\ fst (fetchBalance Sample.domOnly (start None))
     = Return (PageLoaded Sample.balanceText).
Proof.
  repeat split; try reflexivity.
  - now left.
  - now left.
  - vm_compute. tauto.
  - discriminate.
Qed.

(** C6, as the script has it.  Whatever [fetchBalance] returns is the body
    with which a balance-like recent call answered, or the page snapshot;
    on a page without text, when the session works and no call answers, it
    is the snapshot with the empty text. *)
Theorem result_is_response_or_snapshot (w : World) (s : State) :
  (forall r, fst (fetchBalance w s) = Return r ->
     (exists response, repliedBy w (recentCalls w) response
                       /\ r = ApiResponse response)
     \/ r = PageLoaded (JsString.substring0 500 (bodyInnerText w)))
  /\ (forall cookie,
        getCookie w s = (Return (JStr cookie), s) -> cookie <> [] ->
        healthy w = true ->
        noAnswer w (recentCalls w) = true ->
        bodyInnerText w = [] ->
        fst (fetchBalance w s) = Return (PageLoaded [])).
Proof.
  split.
  - intros r. apply ensures_fetchBalance.
  - intros cookie Hcookie Hne Hw Hno Htext.
    destruct (@fetchBalance_returns w s cookie _ Hcookie Hne Hw
                (returns_extract w (healthy_step w EvaluateContent Hw)
                   (healthy_step w EvaluateApiCalls Hw)
                   (probe_falls_through w _ Hno))) as [evs Hevs].
    now rewrite Hevs, Htext.
Qed.

Lemma result_is_response_or_snapshot_witness :
  fst (fetchBalance Sample.blankPage (start None)) = Return (PageLoaded []).
Proof.
  apply (proj2 (result_is_response_or_snapshot Sample.blankPage (start None))
           (lit "sid=abc; uid=42"));
    first [reflexivity | discriminate].
Defined.

(** A page with no element, no text and no recorded request gives the
    page snapshot with the empty text, the same variant as a page with
    text, and not [Empty]. *)
Lemma blank_page_is_not_Empty :
  document Sample.blankPage = []
  /\ bodyInnerText Sample.blankPage = []
  /\ recentCalls Sample.blankPage = []
  /\ exists r, fst (fetchBalance Sample.blankPage (start None)) = Return r
               /\ r = PageLoaded []
               /\ variant r = RawContentSample
               /\ variant r <> Empty.
Proof.
  repeat split. exists (PageLoaded []). repeat split. discriminate.
Qed.

End Extraction.

(** ** The credential *)

Section Credential.
Import Script.

(** C7, as the script has it.  The cookie file is used whenever it exists,
    whatever the environment variable holds: [getCookie] returns the
    [cookie] field of the parsed content, and a file that [JSON.parse]
    rejects makes it throw instead of falling back on the environment
    variable.  The environment variable is read only when there is no
    file.  When the value obtained is empty or missing, [fetchBalance]
    throws the missing-cookie error and does nothing else. *)
Theorem file_precedes_environment (w : World) (s : State) :
  (forall cookieData,
      cookieFile w = Parsed cookieData ->
      getCookie w s = match Js.getField (lit "cookie") cookieData with
                      | inr cookie => (Return cookie, s)
                      | inl e => (Throw e, s)
                      end)
  /\ (forall text,
        cookieFile w = Malformed text -> getCookie w s = (Throw ErrSyntax, s))
  /\ (forall w', cookieFile w' = cookieFile w -> cookieFile w <> NoFile ->
        getCookie w' s = getCookie w s)
  /\ (cookieFile w = NoFile ->
        getCookie w s = (Return (JStr (Js.orElse (MINIMAX_COOKIE w) [])), s))
  /\ (forall cookie,
        getCookie w s = (Return cookie, s) -> Js.truthy cookie = false ->
        fetchBalance w s = (Throw ErrMissingCookie, s)).
Proof.
  repeat split.
  - intros data H. unfold getCookie. rewrite H.
    now destruct (Js.getField (lit "cookie") data).
  - intros text H. unfold getCookie. now rewrite H.
  - intros w' H Hfile. unfold getCookie. rewrite H.
    destruct (cookieFile w); [contradiction|reflexivity|reflexivity].
  - intros H. unfold getCookie. now rewrite H.
  - intros cookie H Hfalsy. unfold fetchBalance. run_with H.
    now rewrite Hfalsy.
Qed.

Lemma file_precedes_environment_witness :
  getCookie Sample.domOnly (start None)
  = (Return (JStr (lit "sid=abc; uid=42")), start None).
Proof.
  exact (proj1 (file_precedes_environment Sample.domOnly (start None))
           Sample.cookieJson eq_refl).
Defined.

(** The cookie file is not JSON and the environment variable holds a
    cookie: [getCookie] throws the syntax error, the cookie of the
    environment is not used, and no browser is launched. *)
Lemma broken_file_hides_environment :
  cookieFile Sample.brokenFile = Malformed (lit "{cookie: sid=abc}")
  /\ MINIMAX_COOKIE Sample.brokenFile = Some (lit "sid=abc; uid=42")
  /\ getCookie Sample.brokenFile (start None) = (Throw ErrSyntax, start None)
  /\ fst (getCookie Sample.brokenFile (start None))
     <> Return (JStr (lit "sid=abc; uid=42"))
  /\ fetchBalance Sample.brokenFile (start None)
     = (Throw ErrSyntax, start None).
Proof.
  repeat split. discriminate.
Qed.

End Credential.

(** ** The recorder and the run *)

Section Recorder.
Import Script.

Variable JSON_stringify : JsValue -> jsstring.

Local Abbreviation save := (saveToGitHub JSON_stringify).
Local Abbreviation section := (newSection JSON_stringify).

Lemma formatDate_ticks w (s : State) :
  formatDate w s
  = (Return (stamp (clock w (ticks s))),
     {| trace := trace s; balanceFile := balanceFile s;
        ticks := S (ticks s) |}).
Proof. reflexivity. Qed.

Lemma announce_runs w (s : State) :
  announce w s
  = (Return tt,
     {| trace := trace s ++ [Console LogBanner;
                             Console (LogTime (stamp (clock w (ticks s))))];
        balanceFile := balanceFile s;
        ticks := S (ticks s) |}).
Proof.
  unfold announce, formatDate, now, bind, emit, ret. simpl.
  now rewrite <- !app_assoc.
Qed.

Lemma publish_events w date (s : State) :
  publish w date s = (Return tt, extend s (publishEvents w date)).
Proof.
  unfold publish, publishEvents, tryCatch, execSync, bind, emit, throw, ret,
    extend.
  destruct (git w GitAdd); simpl; [now rewrite <- !app_assoc|].
  destruct (git w (GitCommit date)); simpl; [now rewrite <- !app_assoc|].
  destruct (git w GitPush); simpl; now rewrite <- !app_assoc.
Qed.

Lemma publish_reports_failure w date :
  gitFails w date = true ->
  exists e, In (Console (LogGitFailed e)) (publishEvents w date).
Proof.
  unfold gitFails, publishEvents.
  destruct (git w GitAdd) as [m|]; [intros _; eexists; simpl; eauto|].
  destruct (git w (GitCommit date)) as [m|];
    [intros _; eexists; simpl; eauto|].
  destruct (git w GitPush) as [m|]; [intros _; eexists; simpl; eauto 6|].
  discriminate.
Qed.

(** The state in which [saveToGitHub] ends when the file can be written. *)
Lemma saveToGitHub_writes w (s : State) (data : JsValue) :
  writeError w = None ->
  let date := stamp (clock w (ticks s)) in
  let content := section date data ++ separator ++ existing s in
  save w data s
  = (Return tt,
     {| trace := trace s ++ [WriteFile content; Console LogSaved]
                 ++ publishEvents w date;
        balanceFile := Some content;
        ticks := S (ticks s) |}).
Proof.
  intros Hw date content.
  unfold saveToGitHub, writeFileSync, formatDate, now, readExisting,
    store, bind, emit, ret.
  rewrite Hw. cbv beta iota. rewrite publish_events.
  unfold extend, newSection, content, existing, date. simpl.
  now rewrite <- !app_assoc.
Qed.

(** C9. When the file can be written, [saveToGitHub] leaves in it the new
    section, the separator and the text that was there before (nothing
    when there was no file), in this order.  Hence two observations
    recorded one after the other, starting without a file, leave the
    section of the second, the separator, the section of the first and the
    separator: the later one first, and what the first run wrote kept
    as it was after the separator. *)
Theorem log_is_prepended :
  (forall w s data,
      writeError w = None ->
      fst (save w data s) = Return tt
      /\ balanceFile (snd (save w data s))
         = Some (section (stamp (clock w (ticks s))) data
                 ++ separator ++ existing s))
  /\ (forall w1 w2 s1 s2 data1 data2,
        writeError w1 = None -> writeError w2 = None ->
        balanceFile s1 = None ->
        balanceFile s2 = balanceFile (snd (save w1 data1 s1)) ->
        balanceFile (snd (save w2 data2 s2))
        = Some (section (stamp (clock w2 (ticks s2))) data2 ++ separator
                ++ section (stamp (clock w1 (ticks s1))) data1 ++ separator)).
Proof.
  split.
  - intros w s data Hw. now rewrite (saveToGitHub_writes w s data Hw).
  - intros w1 w2 s1 s2 data1 data2 H1 H2 Hnone Hfile.
    rewrite (saveToGitHub_writes w2 s2 data2 H2).
    rewrite (saveToGitHub_writes w1 s1 data1 H1) in Hfile.
    cbn [snd balanceFile] in Hfile |- *.
    unfold existing at 1. rewrite Hfile. unfold existing. rewrite Hnone.
    now rewrite app_nil_r.
Qed.

(** C4. With no cookie file and the environment variable unset or empty,
    [main] ends with exit code 1 after printing the missing-cookie error:
    the trace gains the two opening lines, the error and the exit, so no
    browser is launched and nothing is written, and the balance file is
    what it was. *)
Theorem missing_credential_aborts (w : World) (s : State) :
  cookieFile w = NoFile ->
  MINIMAX_COOKIE w = None \/ MINIMAX_COOKIE w = Some [] ->
  main JSON_stringify w s
  = (Return 1%Z,
     {| trace := trace s ++ [Console LogBanner;
                             Console (LogTime (stamp (clock w (ticks s))));
                             ConsoleError ErrMissingCookie;
                             ProcessExit 1];
        balanceFile := balanceFile s;
        ticks := S (ticks s) |}).
Proof.
  intros Hfile Henv.
  unfold main, announce, tryCatch, fetchBalance, getCookie, formatDate, now,
    bind, emit, throw, ret.
  rewrite Hfile. destruct Henv as [-> | ->]; simpl;
    now rewrite <- !app_assoc.
Qed.

(** C8. When [fetchBalance] returns, the file can be written and one of the
    three git commands fails, [main] ends with exit code 0; the balance
    file holds the new section in front of the separator and of what it
    held before; and the trace gains the write, the git commands up to the
    one that failed, the line that reports the failure and the closing
    line. *)
Theorem sync_failure_is_not_fatal (w : World) (s s1 : State)
    (balance : FetchResult) :
  fetchBalance w (snd (announce w s)) = (Return balance, s1) ->
  writeError w = None ->
  let timestamp := stamp (clock w (ticks s1)) in
  let date := stamp (clock w (S (ticks s1))) in
  let content :=
    section date (observation timestamp balance) ++ separator ++ existing s1 in
  gitFails w date = true ->
  exists s2 e,
    main JSON_stringify w s = (Return 0%Z, s2)
    /\ balanceFile s2 = Some content
    /\ trace s2 = trace s1
                  ++ [Console (LogBalance (toJs balance));
                      WriteFile content; Console LogSaved]
                  ++ publishEvents w date ++ [Console LogDone]
    /\ In (Console (LogGitFailed e)) (publishEvents w date).
Proof.
  intros Hfetch Hw timestamp date content Hgit.
  destruct (publish_reports_failure w date Hgit) as [e He].
  rewrite announce_runs in Hfetch. cbn [snd] in Hfetch.
  assert (Hmain : main JSON_stringify w s
                  = (Return 0%Z,
                     {| trace := trace s1
                          ++ [Console (LogBalance (toJs balance));
                              WriteFile content; Console LogSaved]
                          ++ publishEvents w date ++ [Console LogDone];
                        balanceFile := Some content;
                        ticks := S (S (ticks s1)) |})).
  { unfold main. unfold bind at 1. rewrite announce_runs. cbv beta iota.
    unfold tryCatch. unfold bind at 1. rewrite Hfetch. cbv beta iota.
    unfold saveToGitHub, writeFileSync, formatDate, now, readExisting,
      store, bind, emit, ret.
    rewrite Hw. cbv beta iota. rewrite publish_events.
    unfold extend, content, newSection, existing, date, timestamp.
    simpl. now rewrite <- !app_assoc. }
  eexists. exists e. rewrite Hmain. repeat split. exact He.
Qed.

End Recorder.

Example stamp_of_iso :
  Script.stamp (lit "2024-05-01T10:00:00.123Z") = lit "2024-05-01 10:00:00 UTC".
Proof. reflexivity. Qed.

(** A whole run on the page that only shows its balance, with the remote
    out of reach. *)
Example run_offline :
  let date := lit "2024-05-01 10:00:02 UTC" in
  let data := Script.observation (lit "2024-05-01 10:00:01 UTC")
                (PageLoaded Sample.balanceText) in
  let s := snd (Script.main Sample.braces Sample.offline (Script.start None)) in
  fst (Script.main Sample.braces Sample.offline (Script.start None))
  = Return 0%Z
  /\ balanceFile s
     = Some (Script.title ++ lit "## " ++ date ++ Script.newline ++ lit "{}"
             ++ Script.newline ++ Script.newline ++ Script.separator)
  /\ trace s
     = [Console LogBanner; Console (LogTime (lit "2024-05-01 10:00:00 UTC"));
        BrowserLaunch; BrowserNewPage;
        PageSetCookie (Script.parseCookies (lit "sid=abc; uid=42"));
        PageGoto Script.url; PageWaitForSelector;
        Script.found Sample.balanceText; Script.found Sample.balanceText;
        Script.found Sample.balanceText;
        Console LogPageLoaded; Console (LogApiCalls []);
        BrowserClose;
        Console (LogBalance (toJs (PageLoaded Sample.balanceText)));
        WriteFile (Script.newSection Sample.braces date data
                   ++ Script.separator);
        Console LogSaved;
        Exec GitAdd; Exec (GitCommit date); Exec GitPush;
        Console (LogGitFailed
                   (ErrExternal (lit "Command failed: git push origin main")));
        Console LogDone].
Proof. repeat split. Qed.

Lemma log_is_prepended_witness :
  balanceFile (snd (Script.saveToGitHub Sample.braces Sample.domOnly
                      JNull (Script.start None)))
  = Some (Script.newSection Sample.braces (lit "2024-05-01 10:00:00 UTC") JNull
          ++ Script.separator).
Proof.
  exact (proj2 (proj1 (log_is_prepended Sample.braces)
                  Sample.domOnly (Script.start None) JNull eq_refl)).
Defined.

Lemma missing_credential_aborts_witness :
  fst (Script.main Sample.braces Sample.noCredential (Script.start None))
  = Return 1%Z.
Proof.
  rewrite (missing_credential_aborts Sample.braces Sample.noCredential
             (Script.start None) eq_refl (or_introl eq_refl)).
  reflexivity.
Defined.

Lemma sync_failure_is_not_fatal_witness :
  fst (Script.main Sample.braces Sample.offline (Script.start None))
  = Return 0%Z.
Proof.
  destruct (@sync_failure_is_not_fatal Sample.braces Sample.offline
              (Script.start None)
              (snd (Script.fetchBalance Sample.offline
                      (snd (Script.announce Sample.offline
                              (Script.start None)))))
              (PageLoaded Sample.balanceText)
              eq_refl eq_refl eq_refl) as [s2 [e [Hmain _]]].
  now rewrite Hmain.
Defined.

(** * Further properties of the script *)

(** ** Strings *)

Module JsStringMore.
Import JsString JsStringFacts.

Lemma startsWith_spec (p s : t) :
  startsWith p s = true <-> exists post, s = p ++ post.
Proof.
  revert s. induction p as [|a p IH]; intros s; simpl.
  - split; [intros _; now exists s | reflexivity].
  - destruct s as [|b s].
    + split; [discriminate | intros [post H]; discriminate].
    + rewrite andb_true_iff, N.eqb_eq, IH. split.
      * intros [-> [post ->]]. now exists post.
      * intros [post [= -> ->]]. split; [reflexivity | now exists post].
Qed.

(** [includes] is the search for a substring. *)
Lemma includes_spec (s needle : t) :
  includes s needle = true <-> exists pre post, s = pre ++ needle ++ post.
Proof.
  induction s as [|c s IH]; simpl.
  - rewrite orb_false_r, startsWith_spec. split.
    + intros [post H]. now exists [], post.
    + intros [pre [post H]]. destruct pre; [now exists post|discriminate].
  - rewrite orb_true_iff, startsWith_spec, IH. split.
    + intros [[post H] | [pre [post H]]].
      * now exists [], post.
      * exists (c :: pre), post. now rewrite H.
    + intros [[|a pre] [post H]].
      * left. now exists post.
      * right. injection H as _ H. now exists pre, post.
Qed.

Lemma skipDigits_split (s : t) :
  exists ds, s = ds ++ skipDigits s /\ Forall (fun d => is_digit d = true) ds.
Proof.
  induction s as [|c s [ds [H F]]]; simpl.
  - now exists [].
  - destruct (is_digit c) eqn:Hc.
    + exists (c :: ds). split; [simpl; now rewrite <- H | now constructor].
    + now exists [].
Qed.

Lemma amountAt_short (d0 d1 d2 : N) (post : t) :
  is_digit d0 = true -> is_digit d1 = true -> is_digit d2 = true ->
  amountAt (d0 :: 46%N :: d1 :: d2 :: post) = true.
Proof.
  intros H0 H1 H2. unfold amountAt. rewrite H0. simpl.
  now rewrite H1, H2.
Qed.

Lemma nonempty_last {A} (x : A) (xs : list A) :
  exists front y, x :: xs = front ++ [y].
Proof.
  destruct (exists_last (l := x :: xs)) as [front [y H]]; [discriminate|].
  now exists front, y.
Qed.

Lemma amountAt_inv (s : t) :
  amountAt s = true ->
  exists pre d0 d1 d2 post,
    s = pre ++ d0 :: 46%N :: d1 :: d2 :: post
    /\ is_digit d0 = true /\ is_digit d1 = true /\ is_digit d2 = true.
Proof.
  destruct s as [|c s]; [discriminate|]. unfold amountAt.
  intros H. apply andb_prop in H as [Hc H].
  destruct (skipDigits_split s) as [ds [Hs F]].
  destruct (skipDigits s) as [|p [|d1 [|d2 post]]]; try discriminate.
  apply andb_prop in H as [H H2]. apply andb_prop in H as [Hp H1].
  apply N.eqb_eq in Hp. subst p.
  destruct (nonempty_last c ds) as [front [d0 Hfront]].
  exists front, d0, d1, d2, post. split; [|split; [|now split]].
  - rewrite Hs. change (c :: ds ++ ?r) with ((c :: ds) ++ r).
    rewrite Hfront, <- app_assoc. reflexivity.
  - assert (Hall : Forall (fun d => is_digit d = true) (c :: ds))
      by now constructor.
    rewrite Hfront in Hall. apply Forall_app in Hall as [_ Hall].
    now inversion Hall.
Qed.

End JsStringMore.

(** ** What the scan and the probe look for *)

Section Patterns.
Import JsString JsStringFacts JsStringMore Script.

(** X1. The pattern [/\d+\.\d{2}/] accepts a text exactly when the text
    holds, somewhere, a digit, a point and two digits in a row: what
    comes before and after does not matter, so an amount with more than
    two decimals is accepted too. *)
Theorem testAmount_iff_digit_point_two_digits (s : jsstring) :
  testAmount s = true <->
  exists pre d0 d1 d2 post,
    s = pre ++ d0 :: 46%N :: d1 :: d2 :: post
    /\ is_digit d0 = true /\ is_digit d1 = true /\ is_digit d2 = true.
Proof.
  split.
  - induction s as [|c s IH].
    + discriminate.
    + unfold testAmount; fold testAmount. intros H. apply orb_prop in H as [H|H].
      * now apply amountAt_inv.
      * destruct (IH H) as [pre [d0 [d1 [d2 [post [Hs Hd]]]]]].
        exists (c :: pre), d0, d1, d2, post. split; [|exact Hd].
        simpl. now rewrite Hs.
  - intros [pre [d0 [d1 [d2 [post [Hs [H0 [H1 H2]]]]]]]]. subst s.
    induction pre as [|c pre IH].
    + simpl app. unfold testAmount; fold testAmount.
      now rewrite amountAt_short.
    + simpl app. unfold testAmount; fold testAmount.
      rewrite IH. apply orb_true_r.
Qed.

(** X2. A URL is probed exactly when it holds one of the words [balance],
    [credit] and [quota] as a substring, in this spelling. *)
Theorem isBalanceUrl_iff_holds_word (u : jsstring) :
  isBalanceUrl u = true <->
  exists word pre post, In word balanceWords /\ u = pre ++ word ++ post.
Proof.
  unfold isBalanceUrl, balanceWords.
  rewrite !orb_true_iff, !includes_spec. split.
  - intros [[[pre [post H]] | [pre [post H]]] | [pre [post H]]];
      eexists; exists pre, post; (split; [|exact H]); simpl; tauto.
  - intros [word [pre [post [Hin H]]]].
    destruct Hin as [<- | [<- | [<- | []]]]; eauto.
Qed.

Lemma replace1_first (a b : N) (front rest : jsstring) :
  ~ In a front -> replace1 a b (front ++ a :: rest) = front ++ b :: rest.
Proof.
  induction front as [|c front IH]; intros Hn; simpl.
  - now rewrite N.eqb_refl.
  - destruct (N.eqb_spec c a) as [->|Hne].
    + exfalso. apply Hn. now left.
    + rewrite IH; [reflexivity|]. intros H. apply Hn. now right.
Qed.

Lemma replace1_length (a b : N) (s : jsstring) :
  List.length (replace1 a b s) = List.length s.
Proof.
  induction s as [|c s IH]; simpl; [reflexivity|].
  destruct (N.eqb c a); simpl; now rewrite ?IH.
Qed.

(** X3. On an ISO text, that is a date of ten code units without [T], a
    [T], a time of eight code units and whatever follows, [formatDate]
    gives the date, a space, the time and [' UTC']: the fraction of the
    second and the zone letter are dropped.  On every text the result is
    at most 23 code units long. *)
Theorem stamp_of_iso_text (date time rest : jsstring) :
  List.length date = 10 -> ~ In 84%N date -> List.length time = 8 ->
  stamp (date ++ 84%N :: time ++ rest) = date ++ 32%N :: time ++ lit " UTC"
  /\ forall iso, List.length (stamp iso) <= 23.
Proof.
  intros Hd HT Ht. split.
  - unfold stamp, substring0. rewrite replace1_first by exact HT.
    change (date ++ 32%N :: time ++ rest)
      with (date ++ (32%N :: time) ++ rest).
    rewrite app_assoc, firstn_app.
    assert (Hlen : List.length (date ++ 32%N :: time) = 19)
      by (rewrite length_app; cbn [List.length]; lia).
    rewrite Hlen, Nat.sub_diag, firstn_all2 by lia.
    simpl firstn. rewrite app_nil_r, <- app_assoc. reflexivity.
  - intros iso. unfold stamp, substring0. rewrite length_app.
    pose proof (firstn_le_length 19 (replace1 84 32 iso)) as Hle.
    match goal with |- _ + ?k <= _ => change k with 4 end. lia.
Qed.

Lemma stamp_of_iso_text_witness :
  stamp (lit "2024-05-01" ++ 84%N :: lit "10:00:00" ++ lit ".123Z")
  = lit "2024-05-01" ++ 32%N :: lit "10:00:00" ++ lit " UTC".
Proof.
  apply (stamp_of_iso_text (lit "2024-05-01") (lit "10:00:00") (lit ".123Z")).
  - reflexivity.
  - cbv. intuition discriminate.
  - reflexivity.
Defined.

End Patterns.

(** ** The cookies given to the browser *)

Section CookieShape.
Import JsString JsStringFacts Script.

Lemma split_length (sep : N) (s : jsstring) :
  List.length (split sep s) = S (occurrences sep s).
Proof.
  unfold occurrences. induction s as [|c s IH]; [reflexivity|].
  simpl. rewrite (N.eqb_sym sep c). destruct (N.eqb c sep); simpl.
  - now rewrite IH.
  - pose proof (split_not_nil sep s).
    destruct (split sep s); [contradiction|exact IH].
Qed.

Lemma trimStart_incl (s : jsstring) (x : N) : In x (trimStart s) -> In x s.
Proof.
  induction s as [|c s IH]; simpl; [easy|].
  destruct (is_space c); [intros H; right; now apply IH | easy].
Qed.

Lemma trim_incl (s : jsstring) (x : N) : In x (trim s) -> In x s.
Proof.
  unfold trim, trimEnd. intros H. apply in_rev in H.
  apply trimStart_incl in H. apply in_rev in H.
  now apply trimStart_incl.
Qed.

Lemma join_tail_incl (sep : N) (p : jsstring) (rest : list jsstring) (x : N) :
  In x (join sep rest) -> In x (join sep (p :: rest)).
Proof.
  destruct rest as [|q rest]; [intros []|].
  intros H. change (join sep (p :: q :: rest))
    with (p ++ sep :: join sep (q :: rest)).
  apply in_or_app. right. now right.
Qed.

Lemma join_head_incl (sep : N) (p : jsstring) (rest : list jsstring) (x : N) :
  In x p -> In x (join sep (p :: rest)).
Proof.
  destruct rest as [|q rest]; [easy|].
  intros H. change (join sep (p :: q :: rest))
    with (p ++ sep :: join sep (q :: rest)).
  apply in_or_app. now left.
Qed.

Lemma toCookie_clean (piece : jsstring) :
  ~ In 59%N piece ->
  ~ In 61%N (name (toCookie piece))
  /\ ~ In 59%N (name (toCookie piece))
  /\ ~ In 59%N (value (toCookie piece)).
Proof.
  intros Hp. unfold toCookie.
  pose proof (split_pieces_free 61 (trim piece)) as Hfree.
  pose proof (join_split 61 (trim piece)) as Hjoin.
  destruct (split 61 (trim piece)) as [|n v]; simpl.
  - repeat split; intros [].
  - inversion Hfree as [|? ? Hn _]; subst. split; [exact Hn|]. split.
    + intros H. apply Hp, trim_incl. rewrite <- Hjoin.
      now apply join_head_incl.
    + intros H. apply Hp, trim_incl. rewrite <- Hjoin.
      now apply join_tail_incl.
Qed.

(** X4. A cookie string gives one browser cookie more than it has [';'],
    so at least one, also when it is a single blank; no name holds ['=']
    or [';'] and no value holds [';']. *)
Theorem parseCookies_count_and_shape (cookie : jsstring) :
  List.length (parseCookies cookie) = S (occurrences 59 cookie)
  /\ Forall (fun k => ~ In 61%N (name k) /\ ~ In 59%N (name k)
                      /\ ~ In 59%N (value k))
            (parseCookies cookie).
Proof.
  unfold parseCookies. split.
  - now rewrite length_map, split_length.
  - apply Forall_map.
    pose proof (split_pieces_free 59 cookie) as Hfree.
    induction Hfree as [|piece pieces Hp _ IH]; constructor; [|exact IH].
    now apply toCookie_clean.
Qed.

(** X5. A piece without ['='], and so the empty piece that a trailing
    [';'] leaves, becomes a cookie whose name is the trimmed piece and
    whose value is empty. *)
Theorem toCookie_without_equals (piece : jsstring) :
  ~ In 61%N (trim piece) ->
  toCookie piece
  = {| name := trim piece; value := []; domain := lit ".minimaxi.com" |}.
Proof.
  intros Hn. unfold toCookie. now rewrite split_no_sep by exact Hn.
Qed.

Lemma toCookie_without_equals_witness :
  toCookie (lit " ")
  = {| name := []; value := []; domain := lit ".minimaxi.com" |}.
Proof.
  apply (toCookie_without_equals (lit " ")). cbv. tauto.
Defined.

End CookieShape.

(** ** What a run of [fetchBalance] does and does not do *)

Section Footprint.
Import Script.

Lemma appends_weaken {A} (P Q : Event -> Prop) (m : M A) :
  (forall e, P e -> Q e) -> appends P m -> appends Q m.
Proof.
  intros HPQ Hm s. destruct (Hm s) as [evs [H F]]. exists evs.
  split; [exact H|]. eapply Forall_impl; [exact HPQ | exact F].
Qed.

Lemma appends_tryFinally {A} P (body : M A) (final : M unit) :
  appends P body -> appends P final -> appends P (tryFinally body final).
Proof.
  intros Hb Hf s. destruct (Hb s) as [e1 [H1 F1]]. unfold tryFinally.
  destruct (body s) as [r s1]. simpl in H1. subst s1.
  destruct (Hf (extend s e1)) as [e2 [H2 F2]].
  exists (e1 ++ e2). split; [|apply Forall_app; now split].
  destruct (final (extend s e1)) as [[[]|e] s2]; simpl in *;
    now rewrite H2, extend_extend.
Qed.

Lemma fetchEvent_more (a b : list ApiCall) (e : Event) :
  incl a b -> fetchEvent a e -> fetchEvent b e.
Proof.
  intros Hab. destruct e; simpl; try easy.
  intros [Hu Hin]. split; [exact Hu|].
  apply in_map_iff in Hin as [c [Hc Hin]]. apply in_map_iff.
  exists c. split; [exact Hc | now apply Hab].
Qed.

Lemma probe_footprint w calls : appends (fetchEvent calls) (probe w calls).
Proof.
  induction calls as [|call rest IH]; simpl; [apply appends_ret|].
  assert (Hrest : appends (fetchEvent (call :: rest)) (probe w rest)).
  { eapply appends_weaken; [|exact IH]. intros e.
    apply fetchEvent_more. intros c Hc. now right. }
  destruct (isBalanceUrl (callName call)) eqn:Hurl; [|exact Hrest].
  apply appends_bind.
  - apply appends_tryCatch.
    + apply appends_bind.
      * unfold refetch. apply appends_bind.
        -- apply appends_emit. simpl. split; [exact Hurl | now left].
        -- intros _. destruct (fetchJson w (callName call));
             [apply appends_throw | apply appends_ret].
      * intros r. apply appends_bind; [now apply appends_emit|].
        intros _. apply appends_ret.
    + intros e. apply appends_bind; [now apply appends_emit|].
      intros _. apply appends_ret.
  - intros [r|]; [apply appends_ret | exact Hrest].
Qed.

Lemma scan_footprint w calls : appends (fetchEvent calls) (scanDocument w).
Proof.
  intros s. rewrite scanDocument_events. exists (scanEvents w).
  split; [reflexivity|]. unfold scanEvents. apply Forall_forall.
  intros e He. apply in_flat_map in He as [sel [_ He]].
  apply in_flat_map in He as [el [_ He]]. unfold inspectEvents in He.
  destruct (looksLikeMoney (innerText el)); [|easy].
  destruct (innerText el); [|easy]. destruct He as [<-|[]]. exact I.
Qed.

Lemma extract_footprint w :
  appends (fetchEvent (recentCalls w)) (extract w).
Proof.
  unfold extract.
  apply appends_bind; [apply appends_await | intros _].
  apply appends_bind; [apply scan_footprint | intros content].
  apply appends_bind; [now apply appends_emit | intros _].
  apply appends_bind; [apply appends_await | intros _].
  apply appends_bind; [now apply appends_emit | intros _].
  apply appends_bind; [apply probe_footprint | intros [r|]];
    apply appends_ret.
Qed.

Lemma session_footprint w cookie :
  appends (fetchEvent (recentCalls w)) (session w cookie).
Proof.
  unfold session.
  apply appends_bind; [now apply appends_emit | intros _].
  apply appends_bind; [apply appends_await | intros _].
  apply appends_bind;
    [destruct cookie; simpl; first [apply appends_ret | apply appends_throw]
    | intros cs].
  apply appends_bind; [now apply appends_emit | intros _].
  apply appends_bind; [apply appends_await | intros _].
  apply appends_bind; [now apply appends_emit | intros _].
  apply appends_bind; [apply appends_await | intros _].
  apply appends_bind; [now apply appends_emit | intros _].
  apply appends_bind; [apply appends_await | intros _].
  apply extract_footprint.
Qed.

Lemma fetchBalance_footprint w :
  appends (fetchEvent (recentCalls w)) (fetchBalance w).
Proof.
  unfold fetchBalance. apply appends_bind.
  - unfold getCookie. destruct (cookieFile w) as [|text|data];
      [apply appends_ret | apply appends_throw |].
    destruct (Js.getField (lit "cookie") data);
      [apply appends_throw | apply appends_ret].
  - intros cookie. destruct (negb (Js.truthy cookie)); [apply appends_throw|].
    apply appends_bind.
    + unfold launch. destruct (launchError w);
        [apply appends_throw | now apply appends_emit].
    + intros _. apply appends_tryFinally; [apply session_footprint|].
      unfold close. apply appends_bind; [now apply appends_emit|].
      intros _. destruct (closeError w);
        [apply appends_throw | apply appends_ret].
Qed.

(** X6. Whatever its outcome, [fetchBalance] leaves the balance file and
    the clock as they were and only adds events to the trace, none of which
    is a write of the file, a git command, a line on the error console or
    an exit of the process. *)
Theorem fetchBalance_changes_nothing (w : World) (s : State) :
  balanceFile (snd (fetchBalance w s)) = balanceFile s
  /\ ticks (snd (fetchBalance w s)) = ticks s
  /\ exists evs,
       trace (snd (fetchBalance w s)) = trace s ++ evs
       /\ Forall (fun e => mutates e = false
                           /\ (forall code, e <> ProcessExit code)
                           /\ (forall err, e <> ConsoleError err)) evs.
Proof.
  destruct (fetchBalance_footprint w s) as [evs [H F]]. rewrite H.
  split; [reflexivity|]. split; [reflexivity|].
  exists evs. split; [reflexivity|].
  eapply Forall_impl; [|exact F].
  intros e He. destruct e; simpl in He; try contradiction;
    (split; [reflexivity | split; intros ?; discriminate]).
Qed.

(** X7. Every URL that a run of [fetchBalance] re-fetches holds one of the
    words [balance], [credit] and [quota] and is the name of one of the
    ten most recent fetch or xhr requests of the page: nothing else is
    requested. *)
Theorem only_recent_balance_urls_are_fetched (w : World) (s : State) :
  exists evs,
    trace (snd (fetchBalance w s)) = trace s ++ evs
    /\ forall u, In (PageFetch u) evs ->
         isBalanceUrl u = true
         /\ exists call, In call (recentCalls w) /\ callName call = u.
Proof.
  destruct (fetchBalance_footprint w s) as [evs [H F]]. rewrite H.
  exists evs. split; [reflexivity|]. intros u Hu.
  pose proof (proj1 (Forall_forall _ _) F _ Hu) as [Hurl Hin].
  split; [exact Hurl|]. apply in_map_iff in Hin as [call [Hc Hin]].
  now exists call.
Qed.

Lemma only_recent_balance_urls_are_fetched_witness :
  exists evs,
    trace (snd (fetchBalance Sample.flaky (start None))) = [] ++ evs
    /\ forall u, In (PageFetch u) evs ->
         isBalanceUrl u = true
         /\ exists call, In call (recentCalls Sample.flaky)
                         /\ callName call = u.
Proof.
  exact (only_recent_balance_urls_are_fetched Sample.flaky (start None)).
Defined.

(** X8. The probe stops at the first call that answers: the calls that
    come after it are not re-fetched and have no effect on the outcome or
    on the trace. *)
Theorem probe_stops_at_first_answer (w : World) (before after : list ApiCall)
    (call : ApiCall) (s : State) :
  answers w call = true ->
  probe w (before ++ call :: after) s = probe w (before ++ [call]) s.
Proof.
  intros Hcall. unfold answers in Hcall.
  apply andb_prop in Hcall as [Hurl Hfetch].
  destruct (fetchJson w (callName call)) as [m|json] eqn:Hjson;
    [discriminate|].
  revert s. induction before as [|c before IH]; intros s.
  - simpl. rewrite Hurl.
    unfold bind, tryCatch, refetch, emit, ret. now rewrite Hjson.
  - simpl. destruct (isBalanceUrl (callName c)); [|apply IH].
    set (attempt := tryCatch _ _). unfold bind.
    destruct (attempt s) as [[[r|]|e] s1]; try reflexivity. apply IH.
Qed.

Lemma probe_stops_at_first_answer_witness :
  probe Sample.flaky
    ([Sample.quotaCall] ++ Sample.balanceCall :: [Sample.quotaCall])
    (start None)
  = probe Sample.flaky ([Sample.quotaCall] ++ [Sample.balanceCall])
      (start None).
Proof.
  apply (@probe_stops_at_first_answer Sample.flaky). reflexivity.
Defined.

Lemma sliceLast_suffix {A} (n : nat) (xs : list A) :
  exists older, xs = older ++ sliceLast n xs.
Proof.
  exists (firstn (List.length xs - n) xs). unfold sliceLast.
  now rewrite firstn_skipn.
Qed.

(** X9. The calls that are probed are the last ones, in order, of the
    fetch and xhr entries of the page: at most ten of them, all of them
    when there are no more than ten, and each of type [fetch] or [xhr]. *)
Theorem recentCalls_are_last_ten (w : World) :
  let async := map toCall (filter isAsync (resources w)) in
  List.length (recentCalls w) <= 10
  /\ (exists older, async = older ++ recentCalls w)
  /\ (List.length async <= 10 -> recentCalls w = async)
  /\ Forall (fun call => callType call = lit "fetch"
                         \/ callType call = lit "xhr") (recentCalls w).
Proof.
  cbv zeta. unfold recentCalls.
  set (async := map toCall (filter isAsync (resources w))).
  split; [|split; [|split]].
  - unfold sliceLast. rewrite length_skipn. lia.
  - apply sliceLast_suffix.
  - intros Hlen. unfold sliceLast.
    replace (List.length async - 10) with 0 by lia. reflexivity.
  - assert (Hall : Forall (fun call => callType call = lit "fetch"
                                       \/ callType call = lit "xhr") async).
    { unfold async. apply Forall_map, Forall_forall. intros r Hr.
      apply filter_In in Hr as [_ Hr]. unfold isAsync in Hr.
      apply orb_prop in Hr as [Hr|Hr]; apply JsStringFacts.eqb_eq in Hr;
        simpl; tauto. }
    destruct (sliceLast_suffix 10 async) as [older Holder].
    rewrite Holder in Hall. now apply Forall_app in Hall as [_ Hall].
Qed.

Lemma recentCalls_are_last_ten_witness :
  recentCalls Sample.flaky
  = map toCall (filter isAsync (resources Sample.flaky)).
Proof.
  apply (proj1 (proj2 (proj2 (recentCalls_are_last_ten Sample.flaky)))).
  simpl. lia.
Defined.

End Footprint.

(** ** The order of the session *)

Section SessionOrder.
Import Script.

Ltac tidy := unfold extend; simpl; rewrite <- ?app_assoc; simpl.

Lemma session_shape w cookie (s : State) :
  exists evs,
    snd (session w cookie s) = extend s evs
    /\ (In (PageGoto url) evs \/ (exists cs, In (PageSetCookie cs) evs) ->
        exists c rest,
          cookie = JStr c
          /\ evs = BrowserNewPage :: PageSetCookie (parseCookies c) :: rest
          /\ (In (PageGoto url) evs ->
              exists rest', rest = PageGoto url :: rest')).
Proof.
  assert (Hnone : forall Q : Prop,
             In (PageGoto url) [BrowserNewPage]
             \/ (exists cs, In (PageSetCookie cs) [BrowserNewPage]) ->
             Q).
  { intros Q [[H|[]] | [cs [H|[]]]]; discriminate. }
  unfold session, bind, await, emit, throw, ret.
  destruct (stepError w NewPage).
  { exists [BrowserNewPage]. split; [reflexivity|]. apply Hnone. }
  destruct cookie as [| |b|n|c|items|fields]; simpl cookiesOf; unfold throw, ret;
    try (exists [BrowserNewPage]; split; [reflexivity|];
         apply Hnone).
  destruct (stepError w SetCookie).
  { exists [BrowserNewPage; PageSetCookie (parseCookies c)].
    split; [tidy; reflexivity|]. intros _. exists c, [].
    split; [reflexivity|]. split; [reflexivity|].
    intros [H|[H|[]]]; discriminate. }
  destruct (stepError w Goto).
  { exists [BrowserNewPage; PageSetCookie (parseCookies c); PageGoto url].
    split; [tidy; reflexivity|]. intros _. exists c, [PageGoto url].
    split; [reflexivity|]. split; [reflexivity|]. intros _. now exists []. }
  destruct (stepError w WaitForBody).
  { exists [BrowserNewPage; PageSetCookie (parseCookies c); PageGoto url;
            PageWaitForSelector].
    split; [tidy; reflexivity|]. intros _.
    exists c, [PageGoto url; PageWaitForSelector].
    split; [reflexivity|]. split; [reflexivity|]. intros _. now eexists. }
  match goal with
  | |- context [extract w ?st] =>
      destruct (extract_footprint w st) as [evs [H _]]; rewrite H
  end.
  exists ([BrowserNewPage; PageSetCookie (parseCookies c); PageGoto url;
           PageWaitForSelector] ++ evs).
  split; [tidy; reflexivity|]. intros _.
  exists c, ([PageGoto url; PageWaitForSelector] ++ evs).
  split; [reflexivity|]. split; [reflexivity|]. intros _. now eexists.
Qed.

Lemma getCookie_state w (s : State) : snd (getCookie w s) = s.
Proof.
  unfold getCookie. destruct (cookieFile w) as [|text|data]; try reflexivity.
  now destruct (Js.getField (lit "cookie") data).
Qed.

(** X10. In every run of [fetchBalance] the cookies are given to the page
    before it navigates: when the trace gains a navigation, or cookies,
    the resolved cookie is a string, and the events added start with the
    launch, the new page and the cookies parsed from that string, followed
    at once by the navigation if there is one. *)
Theorem cookies_are_set_before_navigation (w : World) (s : State) :
  exists evs,
    trace (snd (fetchBalance w s)) = trace s ++ evs
    /\ (In (PageGoto url) evs \/ (exists cs, In (PageSetCookie cs) evs) ->
        exists c rest,
          fst (getCookie w s) = Return (JStr c)
          /\ evs = BrowserLaunch :: BrowserNewPage
                   :: PageSetCookie (parseCookies c) :: rest
          /\ (In (PageGoto url) evs ->
              exists rest', rest = PageGoto url :: rest')).
Proof.
  assert (Hnil : forall Q : Prop,
             In (PageGoto url) [] \/ (exists cs, In (PageSetCookie cs) []) ->
             Q).
  { intros Q [[]|[cs []]]. }
  unfold fetchBalance, bind. pose proof (getCookie_state w s) as Hs.
  destruct (getCookie w s) as [[cookie|e] s0]; simpl in Hs; subst s0.
  2:{ exists []. split; [simpl; now rewrite app_nil_r | apply Hnil]. }
  destruct (negb (Js.truthy cookie)).
  { exists []. split; [simpl; now rewrite app_nil_r | apply Hnil]. }
  unfold launch. destruct (launchError w).
  { exists []. split; [simpl; now rewrite app_nil_r | apply Hnil]. }
  rewrite emit_extend. unfold tryFinally.
  destruct (session_shape w cookie (extend s [BrowserLaunch]))
    as [evs [H Hshape]].
  destruct (session w cookie (extend s [BrowserLaunch])) as [r s1].
  simpl in H. subst s1. unfold close, bind. rewrite emit_extend.
  exists (BrowserLaunch :: evs ++ [BrowserClose]). split.
  - destruct (closeError w); destruct r; simpl; now rewrite <- !app_assoc.
  - intros Hin.
    assert (Hin' : In (PageGoto url) evs
                   \/ (exists cs, In (PageSetCookie cs) evs)).
    { destruct Hin as [[H|H] | [cs [H|H]]]; try discriminate.
      - apply in_app_or in H as [H|[H|[]]]; [now left | discriminate].
      - apply in_app_or in H as [H|[H|[]]]; [right; now exists cs | discriminate]. }
    destruct (Hshape Hin') as [c [rest [-> [-> Hgoto]]]].
    exists c, (rest ++ [BrowserClose]). split; [reflexivity|].
    split; [reflexivity|]. intros Hg.
    assert (Hg' : In (PageGoto url)
                    (BrowserNewPage :: PageSetCookie (parseCookies c) :: rest)).
    { destruct Hg as [Hg|[Hg|[Hg|Hg]]]; try discriminate.
      apply in_app_or in Hg as [Hg|[Hg|[]]]; [|discriminate].
      right. now right. }
    destruct (Hgoto Hg') as [rest' ->]. now exists (rest' ++ [BrowserClose]).
Qed.

Lemma cookies_are_set_before_navigation_witness :
  exists evs,
    trace (snd (fetchBalance Sample.stalled (start None))) = [] ++ evs
    /\ (In (PageGoto url) evs \/ (exists cs, In (PageSetCookie cs) evs) ->
        exists c rest,
          fst (getCookie Sample.stalled (start None)) = Return (JStr c)
          /\ evs = BrowserLaunch :: BrowserNewPage
                   :: PageSetCookie (parseCookies c) :: rest
          /\ (In (PageGoto url) evs ->
              exists rest', rest = PageGoto url :: rest')).
Proof.
  exact (cookies_are_set_before_navigation Sample.stalled (start None)).
Defined.

(** X11. A cookie that is not a string, such as a number in the cookie
    file, passes the check for a missing cookie; the run then launches the
    browser, opens a page, throws before any cookie is set or any page is
    visited, and closes the browser. *)
Theorem non_string_cookie_throws_in_session (w : World) (s : State)
    (cookie : JsValue) :
  getCookie w s = (Return cookie, s) -> Js.truthy cookie = true ->
  (forall c, cookie <> JStr c) ->
  launchError w = None ->
  exists err,
    fetchBalance w s
    = (Throw err, extend s [BrowserLaunch; BrowserNewPage; BrowserClose])
    /\ (stepError w NewPage = None -> closeError w = None -> err = ErrType).
Proof.
  intros Hcookie Htruthy Hstr Hlaunch.
  unfold fetchBalance. run_with Hcookie. rewrite Htruthy. cbn [negb].
  unfold launch. rewrite Hlaunch. run_emit.
  unfold tryFinally, session, close, bind, await, emit, throw, ret.
  destruct (stepError w NewPage) as [m|].
  - destruct (closeError w) as [m'|]; eexists;
      (split; [tidy; reflexivity | intros; congruence]).
  - destruct cookie; simpl cookiesOf; unfold throw;
      try (exfalso; eapply Hstr; reflexivity);
      destruct (closeError w) as [m'|]; eexists;
      (split; [tidy; reflexivity | intros; congruence]).
Qed.

Lemma non_string_cookie_throws_in_session_witness :
  fetchBalance Sample.numericCookie (start None)
  = (Throw ErrType,
     extend (start None) [BrowserLaunch; BrowserNewPage; BrowserClose]).
Proof.
  assert (Hstr : forall c, JNum (Finite (42 # 1)) <> JStr c)
    by (intros c; discriminate).
  destruct (@non_string_cookie_throws_in_session Sample.numericCookie
              (start None) (JNum (Finite (42 # 1)))
              eq_refl eq_refl Hstr eq_refl)
    as [err [H Herr]].
  rewrite H. now rewrite (Herr eq_refl eq_refl).
Defined.

(** X12. When the browser fails to close, its error is what [fetchBalance]
    throws, whatever the session had produced: a result that was obtained
    is lost. *)
Theorem close_error_replaces_outcome (w : World) (s : State)
    (cookie : JsValue) (message : jsstring) :
  getCookie w s = (Return cookie, s) -> Js.truthy cookie = true ->
  launchError w = None ->
  closeError w = Some message ->
  fst (fetchBalance w s) = Throw (ErrExternal message).
Proof.
  intros Hcookie Htruthy Hlaunch Hclose.
  unfold fetchBalance. run_with Hcookie. rewrite Htruthy. cbn [negb].
  unfold launch. rewrite Hlaunch. run_emit.
  unfold tryFinally, close.
  destruct (session w cookie (extend s [BrowserLaunch])) as [r s1].
  run_emit. now rewrite Hclose.
Qed.

Lemma close_error_replaces_outcome_witness :
  fst (fetchBalance Sample.closeFails (start None))
  = Throw (ErrExternal (lit "Protocol error: Target closed"))
  /\ fst (session Sample.closeFails (JStr (lit "sid=abc; uid=42"))
            (extend (start None) [BrowserLaunch]))
     = Return (ApiResponse Sample.balanceBody).
Proof.
  split; [|reflexivity].
  apply (@close_error_replaces_outcome Sample.closeFails (start None)
           (JStr (lit "sid=abc; uid=42"))); reflexivity.
Defined.

(** X13. A page snapshot that [fetchBalance] returns is as long as the
    text of the body, up to 500 code units; a text of at most 500 code
    units is returned whole. *)
Theorem snapshot_length (w : World) (s : State) (preview : jsstring) :
  fst (fetchBalance w s) = Return (PageLoaded preview) ->
  List.length preview = Nat.min 500 (List.length (bodyInnerText w))
  /\ (List.length (bodyInnerText w) <= 500 -> preview = bodyInnerText w).
Proof.
  intros H. destruct (ensures_fetchBalance w s H) as [[r [_ Hr]] | Hr];
    [discriminate|].
  assert (Hp : preview = JsString.substring0 500 (bodyInnerText w))
    by congruence.
  rewrite Hp. unfold JsString.substring0. split.
  - apply length_firstn.
  - intros Hlen. now apply firstn_all2.
Qed.

Lemma snapshot_length_witness :
  List.length Sample.balanceText
  = Nat.min 500 (List.length (bodyInnerText Sample.domOnly))
  /\ (List.length (bodyInnerText Sample.domOnly) <= 500 ->
      Sample.balanceText = bodyInnerText Sample.domOnly).
Proof.
  apply (@snapshot_length Sample.domOnly (start None)). reflexivity.
Defined.

End SessionOrder.

(** ** How a run ends *)

Section Ending.
Import Script.

Variable JSON_stringify : JsValue -> jsstring.

Lemma fetchEvent_harmless calls (e : Event) :
  fetchEvent calls e -> mutates e = false.
Proof. destruct e; simpl; try reflexivity; contradiction. Qed.

(** X14. A cookie file that parses but has no [cookie] field, or an empty or
    [null] one, ends the run like a missing credential, with exit code 1,
    before any browser is launched and without a write, whatever the
    environment variable holds: the variable is not a fallback for such a
    file. *)
Theorem cookie_field_missing_aborts (w : World) (s : State)
    (cookieData cookie : JsValue) :
  cookieFile w = Parsed cookieData ->
  Js.getField (lit "cookie") cookieData = inr cookie ->
  Js.truthy cookie = false ->
  main JSON_stringify w s
  = (Return 1%Z,
     {| trace := trace s ++ [Console LogBanner;
                             Console (LogTime (stamp (clock w (ticks s))));
                             ConsoleError ErrMissingCookie;
                             ProcessExit 1];
        balanceFile := balanceFile s;
        ticks := S (ticks s) |}).
Proof.
  intros Hfile Hfield Hfalsy.
  unfold main, announce, tryCatch, fetchBalance, getCookie, formatDate, now,
    bind, emit, throw, ret.
  rewrite Hfile, Hfield. cbv beta iota. rewrite Hfalsy. simpl.
  now rewrite <- !app_assoc.
Qed.

(** X15. When [fetchBalance] throws, whatever the error, [main] prints it
    on the error console and ends with exit code 1; nothing is written,
    no git command runs and the balance file is what it was. *)
Theorem fetch_failure_exits_1 (w : World) (s : State) (e : JsError) :
  fst (fetchBalance w (snd (announce w s))) = Throw e ->
  exists s2 evs,
    main JSON_stringify w s = (Return 1%Z, s2)
    /\ balanceFile s2 = balanceFile s
    /\ trace s2
       = trace s
         ++ [Console LogBanner; Console (LogTime (stamp (clock w (ticks s))))]
         ++ evs ++ [ConsoleError e; ProcessExit 1]
    /\ Forall (fun ev => mutates ev = false) evs.
Proof.
  rewrite announce_runs. cbn [snd]. intros Hthrow.
  unfold main. unfold bind at 1. rewrite announce_runs. cbv beta iota.
  unfold tryCatch. unfold bind at 1.
  match goal with
  | |- context [fetchBalance w ?st] =>
      destruct (fetchBalance_footprint w st) as [evs [Hs F]];
      destruct (fetchBalance w st) as [r s1]
  end.
  simpl in Hthrow, Hs. subst r s1.
  eexists. exists evs. split; [|split; [|split]].
  - unfold bind, emit, ret. reflexivity.
  - reflexivity.
  - simpl. now rewrite <- !app_assoc.
  - eapply Forall_impl; [|exact F]. apply fetchEvent_harmless.
Qed.


(** X17. [main] never throws, and its exit code is 0 exactly when
    [fetchBalance] returns and the balance file can be written; it is 1
    otherwise.  A failure of git never changes it. *)
Theorem exit_code_of_main (w : World) (s : State) :
  fst (main JSON_stringify w s)
  = Return match fst (fetchBalance w (snd (announce w s))), writeError w with
           | Return _, None => 0%Z
           | _, _ => 1%Z
           end.
Proof.
  rewrite announce_runs. cbn [snd].
  unfold main. unfold bind at 1. rewrite announce_runs. cbv beta iota.
  unfold tryCatch. unfold bind at 1.
  match goal with
  | |- context [fetchBalance w ?st] => destruct (fetchBalance w st) as [r s1]
  end.
  destruct r as [balance|e]; cbn [fst].
  - unfold saveToGitHub, writeFileSync, formatDate, now, readExisting,
      store, bind, emit, throw, ret.
    destruct (writeError w); cbv beta iota; [reflexivity|].
    now rewrite publish_events.
  - unfold bind, emit, ret. reflexivity.
Qed.

(** X18. [publish] runs the git commands in the order add, commit, push
    and stops at the first that fails: what it adds to the trace is a
    non-empty beginning of the three commands and one line.  When none
    fails all three have run and the line reports the synchronisation;
    otherwise the last command run is the one that failed, those before it
    succeeded, and the line reports its error.  In both cases [publish]
    returns. *)
Theorem publish_stops_at_first_failure (w : World) (date : jsstring)
    (s : State) :
  exists n line,
    publish w date s
    = (Return tt,
       extend s (map Exec (firstn (S n) (gitCommands date))
                 ++ [Console line]))
    /\ n < 3
    /\ Forall (fun cmd => git w cmd = None) (firstn n (gitCommands date))
    /\ ((gitFails w date = false /\ n = 2 /\ git w GitPush = None
         /\ line = LogSynced)
        \/ (gitFails w date = true
            /\ exists cmd message,
                 nth_error (gitCommands date) n = Some cmd
                 /\ git w cmd = Some message
                 /\ line = LogGitFailed (ErrExternal message))).
Proof.
  rewrite publish_events. unfold publishEvents, gitFails, gitCommands.
  destruct (git w GitAdd) as [m|] eqn:Hadd.
  { exists 0, (LogGitFailed (ErrExternal m)).
    split; [reflexivity|]. split; [lia|]. split; [constructor|].
    right. split; [reflexivity|]. exists GitAdd, m. now repeat split. }
  destruct (git w (GitCommit date)) as [m|] eqn:Hcommit.
  { exists 1, (LogGitFailed (ErrExternal m)).
    split; [reflexivity|]. split; [lia|].
    split; [repeat constructor; exact Hadd|].
    right. split; [reflexivity|]. exists (GitCommit date), m.
    now repeat split. }
  destruct (git w GitPush) as [m|] eqn:Hpush.
  { exists 2, (LogGitFailed (ErrExternal m)).
    split; [reflexivity|]. split; [lia|].
    split; [repeat constructor; assumption|].
    right. split; [reflexivity|]. exists GitPush, m. now repeat split. }
  exists 2, LogSynced.
  split; [reflexivity|]. split; [lia|].
  split; [repeat constructor; assumption|].
  left. now repeat split.
Qed.

Lemma saveOnce_text (file : option jsstring) (run : World * JsValue) :
  writeError (fst run) = None ->
  saveOnce JSON_stringify file run
  = Some (sectionOf JSON_stringify run ++ text file).
Proof.
  intros Hw. unfold saveOnce.
  rewrite (saveToGitHub_writes JSON_stringify (fst run) (start file)
             (snd run) Hw).
  unfold sectionOf, existing, text, start. simpl.
  now rewrite <- !app_assoc.
Qed.

(** X19. Runs that record one after the other, each able to write the
    file, leave in it their sections, each followed by the separator, the
    latest first, and then the text the file had at the start: the file
    only grows, at its head, and nothing in it is rewritten. *)
Theorem log_is_newest_first (runs : list (World * JsValue))
    (file : option jsstring) :
  Forall (fun run => writeError (fst run) = None) runs ->
  text (saveEach JSON_stringify runs file)
  = List.concat (map (sectionOf JSON_stringify) (rev runs)) ++ text file.
Proof.
  intros Hw. revert file.
  induction Hw as [|run runs Hrun _ IH]; intros file; [reflexivity|].
  unfold saveEach in *. simpl fold_left. rewrite IH.
  rewrite (saveOnce_text file run Hrun). simpl rev.
  rewrite map_app, concat_app. cbn [map List.concat text].
  now rewrite app_nil_r, <- app_assoc.
Qed.

End Ending.

Lemma cookie_field_missing_aborts_witness :
  fst (Script.main Sample.braces Sample.emptyObjectFile (Script.start None))
  = Return 1%Z.
Proof.
  rewrite (@cookie_field_missing_aborts Sample.braces Sample.emptyObjectFile
             (Script.start None) (JObj []) JUndefined
             eq_refl eq_refl eq_refl).
  reflexivity.
Defined.

Lemma fetch_failure_exits_1_witness :
  fst (Script.main Sample.braces Sample.stalled (Script.start None))
  = Return 1%Z.
Proof.
  destruct (@fetch_failure_exits_1 Sample.braces Sample.stalled
              (Script.start None)
              (ErrExternal (lit "Navigation timeout of 30000 ms exceeded"))
              eq_refl) as [s2 [evs [H _]]].
  now rewrite H.
Defined.


Lemma log_is_newest_first_witness :
  text (saveEach Sample.braces
          [(Sample.domOnly, JNull); (Sample.offline, JBool true)] None)
  = sectionOf Sample.braces (Sample.offline, JBool true)
    ++ sectionOf Sample.braces (Sample.domOnly, JNull).
Proof.
  rewrite (@log_is_newest_first Sample.braces
             [(Sample.domOnly, JNull); (Sample.offline, JBool true)] None).
  - simpl List.concat. now rewrite !app_nil_r.
  - repeat constructor.
Defined.

(** ** What the scan prints *)

Section ScanOutput.
Import Script.

(** X20. Every line that the scan of the document prints is ['Found: ']
    followed by the text of an element of the document that one of the six
    selectors selects and whose text is not empty and holds a [¥], a [元]
    or an amount: an element without text, or with other text, is never
    printed. *)
Theorem scan_prints_only_money (w : World) (s : State) :
  exists evs,
    scanDocument w s = (Return (bodyInnerText w), extend s evs)
    /\ Forall (fun e =>
                 exists sel el shown,
                   In sel selectors /\ In el (document w)
                   /\ matches sel el = true
                   /\ innerText el = Some shown /\ shown <> []
                   /\ (JsString.includes shown yen = true
                       \/ JsString.includes shown yuan = true
                       \/ JsString.testAmount shown = true)
                   /\ e = PageConsole (lit "Found: " ++ shown)) evs.
Proof.
  exists (scanEvents w). split; [apply scanDocument_events|].
  unfold scanEvents. apply Forall_forall. intros e He.
  apply in_flat_map in He as [sel [Hsel He]].
  apply in_flat_map in He as [el [Hel He]].
  unfold querySelectorAll in Hel. apply filter_In in Hel as [Hel Hmatch].
  unfold inspectEvents in He.
  destruct (looksLikeMoney (innerText el)) eqn:Hmoney; [|easy].
  destruct (innerText el) as [shown|] eqn:Htext; [|easy].
  destruct He as [<-|[]]. exists sel, el, shown.
  unfold looksLikeMoney in Hmoney. destruct shown as [|c r]; [discriminate|].
  repeat split; try assumption; try discriminate.
  apply orb_prop in Hmoney as [Hmoney|Hmoney]; [|tauto].
  apply orb_prop in Hmoney as [Hmoney|Hmoney]; tauto.
Qed.

End ScanOutput.
